(** * localhttps: the certificate lifecycle manager

    A shallow embedding of [localhttps/cert/cert.py] (class [Certificate])
    and the properties of its path derivation, configuration text,
    existence check, creation workflow and deletion workflow.

    Conventions of the embedding:
    - a Python [str] is a [string]; one character is one code point below
      256, so [str.isspace] is decided on that range;
    - an [AsyncPath] is the list of its components below the file-system
      root; the storage name of a certificate is a file-name stem, so that
      [root / (name + extension)] adds one component to the root;
    - the file system is a finite map from paths to nodes; an operation
      resolves its path first, and fails with [NotADirectoryError] when an
      ancestor of the path is a regular file;
    - a coroutine is a function from the world to an outcome: a result (a
      value or the raised exception), the world it leaves and the
      operations it performed, in order;
    - [asyncio.gather] resumes its tasks in an order chosen by the event
      loop, which the world carries as an oracle, and propagates the first
      exception as soon as a task raises it. *)

From Stdlib Require Import Ascii String NArith.
From stdpp Require Import gmap strings list fin_maps.

Open Scope string_scope.
Open Scope list_scope.

(** ** Strings *)

Definition nl : string := String (ascii_of_nat 10) "".
Definition tab : string := String (ascii_of_nat 9) "".

(** [str.isspace] on one code point below 256: the controls 9 to 13 and 28
    to 31, the space, NEL (133) and the no-break space (160). *)
Definition is_space (c : ascii) : bool :=
  let n := N_of_ascii c in
  ((9 <=? n) && (n <=? 13) || (28 <=? n) && (n <=? 32)
   || (n =? 133) || (n =? 160))%N.

Fixpoint lstrip (s : string) : string :=
  match s with
  | EmptyString => EmptyString
  | String c s' => if is_space c then lstrip s' else s
  end.

Fixpoint rstrip (s : string) : string :=
  match s with
  | EmptyString => EmptyString
  | String c s' =>
      match rstrip s' with
      | EmptyString => if is_space c then EmptyString else String c EmptyString
      | r => String c r
      end
  end.

(** [str.strip()] with no argument. *)
Definition strip (s : string) : string := rstrip (lstrip s).

(** [''.join(l)] *)
Definition join (l : list string) : string := foldr String.append "" l.

(** [sep.join(l)] for a non-empty separator between the lines of a text. *)
Fixpoint unlines (l : list string) : string :=
  match l with
  | [] => ""
  | [x] => x
  | x :: l' => x +:+ nl +:+ unlines l'
  end.

(** ** Paths *)

Definition Path : Type := list string.

(** [p / s], for an operand [s] that is one component: a name that holds
    no separator and is neither empty nor a dot. *)
Definition joinpath (p : Path) (s : string) : Path := (p ++ [s])%list.
Infix "</>" := joinpath (at level 40, left associativity).

(** [str(p)] of an absolute path. *)
Definition path_str (p : Path) : string :=
  match p with
  | [] => "/"
  | _ => join ((λ s, "/" +:+ s) <$> p)
  end.

(** ** The file system *)

Inductive Node : Type :=
| File (content : string) (mode : N)
| Dir (mode : N).

(** The file system holds every existing path, the root directory [[]]
    included: on a file system, what exists lies below directories, and
    nothing lies below a regular file. The model knows neither symbolic
    links nor access rights. *)
Abbreviation FS := (gmap Path Node).

(** [p.parent], for a path below the root. *)
Definition parent (p : Path) : option Path :=
  match p with
  | [] => None
  | _ => Some (removelast p)
  end.

(** The entries of directory [d], in the order the system lists them. *)
Definition entries (fs : FS) (d : Path) : list Path :=
  filter (λ q, parent q = Some d) (map_to_list fs).*1.

(** [p] is a regular file. *)
Definition is_file (fs : FS) (p : Path) : bool :=
  match fs !! p with
  | Some (File _ _) => true
  | _ => false
  end.

(** The proper ancestors of [p], the root of the file system first. *)
Definition ancestors (p : Path) : list Path :=
  (λ n, take n p) <$> seq 0 (length p).

(** The resolution of [p] fails with [ENOTDIR]: one of its ancestors is a
    regular file. *)
Definition blocked (fs : FS) (p : Path) : bool :=
  existsb (is_file fs) (ancestors p).

(** [p] resolves to a directory. *)
Definition is_dir (fs : FS) (p : Path) : bool :=
  negb (blocked fs p) &&
  match fs !! p with
  | Some (Dir _) => true
  | _ => false
  end.

(** ** Exceptions, operations and traces *)

Inductive Error : Type :=
| FileNotFoundError (p : Path)
| FileExistsError (p : Path)
| IsADirectoryError (p : Path)
| NotADirectoryError (p : Path)
| DirectoryNotEmpty (p : Path)
| ValueError
| CmdError (diagnostic : string).

Inductive Result (A : Type) : Type :=
| Ok (a : A)
| Raise (e : Error).
Arguments Ok {A} a.
Arguments Raise {A} e.

Inductive Op : Type :=
| OpExists (p : Path)
| OpUnlink (p : Path)
| OpGlob (p : Path)
| OpRmdir (p : Path)
| OpMkdir (p : Path)
| OpWriteText (p : Path) (text : string)
| OpChmod (p : Path) (mode : N)
| OpRun (args : list string).

(** What an operation answered: it completed, it answered a question, or
    it raised. *)
Inductive Answer : Type :=
| Done
| Found (b : bool)
| Failed (e : Error).

Record Event : Type := Ev { ev_op : Op; ev_ans : Answer }.

Definition answer_of (r : Result unit) : Answer :=
  match r with
  | Ok _ => Done
  | Raise e => Failed e
  end.

Definition ev_failed (e : Event) : bool :=
  match ev_ans e with
  | Failed _ => true
  | _ => false
  end.

(** ** Coroutines *)

Section Effects.
(** The state of the command executor. *)
Context {St : Type}.

Record World : Type := mkWorld {
  fs : FS;
  cmd_state : St;
  (** the choices of the event loop at each [gather] *)
  oracle : list nat;
  umask : N
}.

Record Outcome (A : Type) : Type := mkOutcome {
  result : Result A;
  world : World;
  trace : list Event
}.
Arguments mkOutcome {A} _ _ _.
Arguments result {A} _.
Arguments world {A} _.
Arguments trace {A} _.

Definition M (A : Type) : Type := World → Outcome A.

Definition ret {A} (a : A) : M A := λ w, mkOutcome (Ok a) w [].

Definition raise {A} (e : Error) : M A := λ w, mkOutcome (Raise e) w [].

Definition bind {A B} (m : M A) (f : A → M B) : M B := λ w,
  let o := m w in
  match result o with
  | Ok a =>
      let o' := f a (world o) in
      mkOutcome (result o') (world o') (trace o ++ trace o')%list
  | Raise e => mkOutcome (Raise e) (world o) (trace o)
  end.

(** The world once the event loop has consumed one choice. *)
Definition popped (w : World) : World :=
  mkWorld (fs w) (cmd_state w) (tl (oracle w)) (umask w).

(** The event loop picks one of [n] pending tasks. *)
Definition choose (n : nat) : M nat := λ w,
  mkOutcome (Ok (hd 0 (oracle w) `mod` n)) (popped w) [].

(** The event loop resumes the pending tasks of a [gather] one at a
    time, in the order it chooses; the operation of a task takes effect
    when the task completes. As soon as a task raises, its exception is
    propagated: the tasks still pending are not awaited, and the outcome
    is the one at that moment. When every task has returned, the loop
    yields their values in the order of completion, each with the
    position of its task. *)
Fixpoint gather_loop {A} (n : nat) (pending : list (nat * M A))
  : M (list (nat * A)) :=
  match n with
  | 0 => ret []
  | S n' =>
      bind (choose (length pending)) (λ k,
        match pending !! k with
        | None => ret []
        | Some (i, t) =>
            bind t (λ a,
            bind (gather_loop n' (delete k pending)) (λ rest,
            ret ((i, a) :: rest)))
        end)
  end.

Fixpoint result_of {A} (done : list (nat * A)) (i : nat) : option A :=
  match done with
  | [] => None
  | (j, a) :: done' =>
      if bool_decide (j = i) then Some a else result_of done' i
  end.

(** [await asyncio.gather] on the tasks: the first exception raised is
    propagated at once, otherwise the results come back in the order of
    the tasks. *)
Definition gather {A} (tasks : list (M A)) : M (list A) :=
  bind (gather_loop (length tasks) (zip (seq 0 (length tasks)) tasks)) (λ done,
    match mapM (result_of done) (seq 0 (length tasks)) with
    | Some rs => ret rs
    | None => raise ValueError
    end).

End Effects.

Arguments World : clear implicits.
Arguments Outcome : clear implicits.
Arguments M : clear implicits.
Arguments mkOutcome {St A} _ _ _.
Arguments result {St A} _.
Arguments world {St A} _.
Arguments trace {St A} _.

Declare Scope coroutine_scope.
Delimit Scope coroutine_scope with co.
Notation "x <- m ; k" := (bind m (λ x, k))
  (at level 20, m at level 100, k at level 200, only parsing) : coroutine_scope.
Notation "m ;; k" := (bind m (λ _, k))
  (at level 100, k at level 200, right associativity, only parsing) : coroutine_scope.

(** ** The command executor *)

(** [localhttps.cmd.Cmd]: [run] is handed the argument list; it may read
    and change the file system and its own state, and it returns or
    raises. *)
Module Cmd.
Record t (St : Type) : Type := Build {
  exec : list string → St → FS → Result unit * St * FS
}.
Arguments exec {St} _ _ _ _.

(** [await cmd.run] on the arguments *)
Definition run {St} (cmd : t St) (args : list string) : M St unit := λ w,
  let '(r, s', fs') := exec cmd args (cmd_state w) (fs w) in
  mkOutcome r (mkWorld fs' s' (oracle w) (umask w)) [Ev (OpRun args) (answer_of r)].
End Cmd.

(** ** Asynchronous paths *)

Module AsyncPath.
Section Ops.
Context {St : Type}.

Definition set_fs (w : World St) (fs' : FS) : World St :=
  mkWorld fs' (cmd_state w) (oracle w) (umask w).

(** [await p.resolve()]: paths are absolute and free of links. *)
Definition resolve (p : Path) : M St Path := ret p.

(** [await p.exists()]: whether the file system holds [p]; it holds no
    path below a regular file, for which the answer is false. *)
Definition exists_ (p : Path) : M St bool := λ w,
  let b := bool_decide (is_Some (fs w !! p)) in
  mkOutcome (Ok b) w [Ev (OpExists p) (Found b)].

(** [await p.unlink(missing_ok=...)]: [missing_ok] absorbs
    [FileNotFoundError] and nothing else. *)
Definition unlink (p : Path) (missing_ok : bool) : M St unit := λ w,
  let '(r, fs') :=
    if blocked (fs w) p then (Raise (NotADirectoryError p), fs w) else
    match fs w !! p with
    | None => (if missing_ok then Ok () else Raise (FileNotFoundError p), fs w)
    | Some (File _ _) => (Ok (), delete p (fs w))
    | Some (Dir _) => (Raise (IsADirectoryError p), fs w)
    end in
  mkOutcome r (set_fs w fs') [Ev (OpUnlink p) (answer_of r)].

(** The prefixes of [p], the root first and [p] last. *)
Definition prefixes (p : Path) : list Path :=
  (λ n, take n p) <$> seq 0 (S (length p)).

Fixpoint ensure_dirs (p : Path) (mode : N) (qs : list Path) (fs0 : FS)
  : Result unit * FS :=
  match qs with
  | [] => (Ok (), fs0)
  | q :: qs' =>
      match fs0 !! q with
      | None => ensure_dirs p mode qs' (<[q := Dir mode]> fs0)
      | Some (Dir _) => ensure_dirs p mode qs' fs0
      | Some (File _ _) =>
          (Raise (if bool_decide (q = p) then FileExistsError p
                  else NotADirectoryError p), fs0)
      end
  end.

(** [await p.mkdir(parents=True, exist_ok=True)] *)
Definition mkdir (p : Path) : M St unit := λ w,
  let '(r, fs') := ensure_dirs p (N.ldiff 511 (umask w)) (prefixes p) (fs w) in
  mkOutcome r (set_fs w fs') [Ev (OpMkdir p) (answer_of r)].

(** [await p.write_text(text)] *)
Definition write_text (p : Path) (text : string) : M St unit := λ w,
  let '(r, fs') :=
    if blocked (fs w) p then (Raise (NotADirectoryError p), fs w) else
    match fs w !! p with
    | Some (Dir _) => (Raise (IsADirectoryError p), fs w)
    | Some (File _ mode) => (Ok (), <[p := File text mode]> (fs w))
    | None =>
        match parent p ≫= (fs w !!.) with
        | Some (Dir _) => (Ok (), <[p := File text (N.ldiff 438 (umask w))]> (fs w))
        | Some (File _ _) => (Raise (NotADirectoryError p), fs w)
        | None => (Raise (FileNotFoundError p), fs w)
        end
    end in
  mkOutcome r (set_fs w fs') [Ev (OpWriteText p text) (answer_of r)].

(** [await p.chmod(mode)] *)
Definition chmod (p : Path) (mode : N) : M St unit := λ w,
  let '(r, fs') :=
    if blocked (fs w) p then (Raise (NotADirectoryError p), fs w) else
    match fs w !! p with
    | Some (File content _) => (Ok (), <[p := File content mode]> (fs w))
    | Some (Dir _) => (Ok (), <[p := Dir mode]> (fs w))
    | None => (Raise (FileNotFoundError p), fs w)
    end in
  mkOutcome r (set_fs w fs') [Ev (OpChmod p mode) (answer_of r)].

(** [p.glob] with the pattern that matches every name: the entries of
    [p] when it is a directory, nothing otherwise. *)
Definition glob_star (p : Path) : M St (list Path) := λ w,
  let l := if is_dir (fs w) p then entries (fs w) p else [] in
  mkOutcome (Ok l) w [Ev (OpGlob p) (Found (bool_decide (l ≠ [])))].

(** [await p.rmdir()] *)
Definition rmdir (p : Path) : M St unit := λ w,
  let '(r, fs') :=
    if blocked (fs w) p then (Raise (NotADirectoryError p), fs w) else
    match fs w !! p with
    | None => (Raise (FileNotFoundError p), fs w)
    | Some (File _ _) => (Raise (NotADirectoryError p), fs w)
    | Some (Dir _) =>
        match entries (fs w) p with
        | [] => (Ok (), delete p (fs w))
        | _ :: _ => (Raise (DirectoryNotEmpty p), fs w)
        end
    end in
  mkOutcome r (set_fs w fs') [Ev (OpRmdir p) (answer_of r)].

End Ops.
End AsyncPath.

(** ** The collaborators *)

(** [localhttps.cert.ca.CertificationAuthority], of which the certificate
    reads three paths. *)
Module CertificationAuthority.
Record t : Type := Build { key_path : Path; pem_path : Path; srl_path : Path }.
End CertificationAuthority.

(** ** Path and subject derivation *)

Module Certificate.

Record t : Type := Build {
  _authority : CertificationAuthority.t;
  _root_path : Path;
  _name : string;
  _domain : string
}.

Definition key_path (self : t) : Path := _root_path self </> (_name self +:+ ".key").
Definition csr_path (self : t) : Path := _root_path self </> (_name self +:+ ".csr").
Definition crt_path (self : t) : Path := _root_path self </> (_name self +:+ ".crt").
Definition conf_path (self : t) : Path := _root_path self </> (_name self +:+ ".conf").

Definition common_name (self : t) : string := _domain self.

Definition email (self : t) : string := _domain self +:+ "@localhttps".

Definition subject_parts (self : t) : list (string * string) :=
  [ ("C", "");
    ("ST", "");
    ("O", "");
    ("localityName", "");
    ("commonName", common_name self);
    ("organizationalUnitName", "");
    ("emailAddress", email self) ].

Definition subject (self : t) : string :=
  join ((λ kv, "/" +:+ kv.1 +:+ "=" +:+ kv.2) <$> subject_parts self) +:+ "/".

(** The f-string of [_build_certificate_conf], before [.strip()]. *)
Definition conf_template (domain : string) : string :=
  nl +:+ unlines [
    "[req]";
    "distinguished_name = req_distinguished_name";
    "req_extensions = v3_req";
    "";
    "[req_distinguished_name]";
    "countryName = Country Name (2 letter code)";
    "countryName_default = US";
    "stateOrProvinceName = State or Province Name (full name)";
    "stateOrProvinceName_default = MN";
    "localityName = Locality Name (eg, city)";
    "localityName_default = Minneapolis";
    "organizationalUnitName" +:+ tab +:+ "= Organizational Unit Name (eg, section)";
    "organizationalUnitName_default" +:+ tab +:+ "= Domain Control Validated";
    "commonName = Internet Widgits Ltd";
    "commonName_max" +:+ tab +:+ "= 64";
    "";
    "[ v3_req ]";
    "# Extensions to add to a certificate request";
    "basicConstraints = CA:FALSE";
    "keyUsage = nonRepudiation, digitalSignature, keyEncipherment";
    "subjectAltName = @alt_names";
    "";
    "[alt_names]";
    "DNS.1 = " +:+ domain;
    "DNS.2 = *." +:+ domain
  ] +:+ nl.

(** The text [_build_certificate_conf] writes. *)
Definition conf_text (self : t) : string := strip (conf_template (_domain self)).

(** *** The operations *)

Section Operations.
Context {St : Type}.
Local Open Scope coroutine_scope.

Definition exists_ (self : t) : M St bool :=
  rs <- gather [
    AsyncPath.exists_ (key_path self);
    AsyncPath.exists_ (csr_path self);
    AsyncPath.exists_ (crt_path self);
    AsyncPath.exists_ (conf_path self) ] ;
  match rs with
  | [key_exists; csr_exists; crt_exists; conf_exists] =>
      ret (key_exists && csr_exists && crt_exists && conf_exists)
  | _ => raise ValueError
  end.

Definition _build_certificate_conf (self : t) : M St unit :=
  AsyncPath.write_text (conf_path self) (conf_text self).

Definition _create_private_key (self : t) (cmd : Cmd.t St) : M St unit :=
  key <- AsyncPath.resolve (key_path self) ;
  Cmd.run cmd [ "openssl"; "genrsa"; "-out"; path_str key; "2048" ].

Definition _create_signing_request (self : t) (cmd : Cmd.t St) : M St unit :=
  key <- AsyncPath.resolve (key_path self) ;
  csr <- AsyncPath.resolve (csr_path self) ;
  conf <- AsyncPath.resolve (conf_path self) ;
  Cmd.run cmd [ "openssl"; "req"; "-new";
                "-key"; path_str key;
                "-out"; path_str csr;
                "-subj"; subject self;
                "-config"; path_str conf ].

Definition delete (self : t) : M St unit :=
  gather [
    AsyncPath.unlink (key_path self) true;
    AsyncPath.unlink (csr_path self) true;
    AsyncPath.unlink (crt_path self) true;
    AsyncPath.unlink (conf_path self) true ] ;;
  root_exists <- AsyncPath.exists_ (_root_path self) ;
  if root_exists then
    found <- AsyncPath.glob_star (_root_path self) ;
    match found with
    | _ :: _ => ret ()
    | [] => AsyncPath.rmdir (_root_path self)
    end
  else ret ().

Definition create (self : t) (cmd : Cmd.t St) : M St unit :=
  delete self ;;
  AsyncPath.mkdir (_root_path self) ;;
  gather [ _build_certificate_conf self; _create_private_key self cmd ] ;;
  _create_signing_request self cmd ;;
  pem <- AsyncPath.resolve (CertificationAuthority.pem_path (_authority self)) ;
  cakey <- AsyncPath.resolve (CertificationAuthority.key_path (_authority self)) ;
  srl <- AsyncPath.resolve (CertificationAuthority.srl_path (_authority self)) ;
  let params := [ "-req"; "-sha256"; "-days"; "730";
                  "-CA"; path_str pem;
                  "-CAkey"; path_str cakey;
                  "-CAserial"; path_str srl ] in
  srl_exists <- AsyncPath.exists_ (CertificationAuthority.srl_path (_authority self)) ;
  let params := if negb srl_exists
                then (params ++ ["-CAcreateserial"])%list else params in
  csr <- AsyncPath.resolve (csr_path self) ;
  crt <- AsyncPath.resolve (crt_path self) ;
  conf <- AsyncPath.resolve (conf_path self) ;
  let params := (params ++ [ "-in"; path_str csr;
                             "-out"; path_str crt;
                             "-extensions"; "v3_req";
                             "-extfile"; path_str conf ])%list in
  Cmd.run cmd ("openssl" :: "x509" :: params) ;;
  AsyncPath.chmod (crt_path self) 420 ;;
  AsyncPath.chmod (key_path self) 420.

End Operations.

End Certificate.

(** ** Definitions used by the statements *)

Section Schedules.
Context {St : Type}.

(** The event loop takes one step without choosing. *)
Definition tick : M St unit := λ w, mkOutcome (Ok ()) (popped w) [].

(** A task with its position in the argument list of [gather]. *)
Definition tagged {X A} (f : X → M St A) (ix : nat * X) : nat * M St A :=
  (ix.1, f ix.2).

(** The tasks of [order] run one after the other, until one raises. *)
Fixpoint run_in_order {A} (order : list (nat * M St A))
  : M St (list (nat * A)) :=
  match order with
  | [] => ret []
  | (i, t) :: rest =>
      bind tick (λ _,
      bind t (λ a,
      bind (run_in_order rest) (λ done,
      ret ((i, a) :: done))))
  end.
End Schedules.

(** The node left at a path by an [unlink] with [missing_ok] that
    returned. *)
Definition unlinked (n : option Node) : option Node :=
  match n with
  | Some (File _ _) => None
  | _ => n
  end.

Definition unlink_fs (p : Path) (fs0 : FS) : FS :=
  match fs0 !! p with
  | Some (File _ _) => delete p fs0
  | _ => fs0
  end.

Fixpoint unlink_all (ps : list Path) (fs0 : FS) : FS :=
  match ps with
  | [] => fs0
  | p :: ps' => unlink_all ps' (unlink_fs p fs0)
  end.

(** What [unlink] with [missing_ok] answers on the file system [fs0]. *)
Definition unlink_result (fs0 : FS) (p : Path) : Result unit :=
  if blocked fs0 p then Raise (NotADirectoryError p)
  else if is_dir fs0 p then Raise (IsADirectoryError p)
  else Ok ().

(** [unlink] with [missing_ok] returns on [p]: the path is a file or absent,
    below directories only. *)
Definition unlinkable (fs0 : FS) (p : Path) : Prop :=
  blocked fs0 p = false ∧ is_dir fs0 p = false.

(** [p] is present on disk. *)
Definition present (fs0 : FS) (p : Path) : bool := bool_decide (is_Some (fs0 !! p)).

(** The four artifact paths of a certificate. *)
Definition artifacts (c : Certificate.t) : list Path :=
  [ Certificate.key_path c; Certificate.csr_path c;
    Certificate.crt_path c; Certificate.conf_path c ].

Section DeleteSteps.
Context {St : Type}.
Local Open Scope coroutine_scope.

(** The operations of [delete] once the four unlinks are joined. *)
Definition remove_root_if_empty (root : Path) : M St unit :=
  root_exists <- AsyncPath.exists_ root ;
  if root_exists then
    found <- AsyncPath.glob_star root ;
    match found with
    | _ :: _ => ret ()
    | [] => AsyncPath.rmdir root
    end
  else ret ().

(** What [remove_root_if_empty] leaves and performs on a file system
    [fs0] where the root resolves and is no regular file. *)
Definition cleanup_fs (root : Path) (fs0 : FS) : FS :=
  if is_dir fs0 root && bool_decide (entries fs0 root = [])
  then delete root fs0 else fs0.

Definition cleanup_trace (root : Path) (fs0 : FS) : list Event :=
  match fs0 !! root with
  | None => [Ev (OpExists root) (Found false)]
  | Some _ =>
      if bool_decide (entries fs0 root = [])
      then [Ev (OpExists root) (Found true); Ev (OpGlob root) (Found false);
            Ev (OpRmdir root) Done]
      else [Ev (OpExists root) (Found true); Ev (OpGlob root) (Found true)]
  end.

(** The event of an unlink that returned. *)
Definition unlink_done (ip : nat * Path) : Event := Ev (OpUnlink ip.2) Done.
End DeleteSteps.

(** ** Example inputs *)

Definition example_authority : CertificationAuthority.t :=
  CertificationAuthority.Build ["ca"; "ca.key"] ["ca"; "ca.pem"] ["ca"; "ca.srl"].

Definition example_cert : Certificate.t :=
  Certificate.Build example_authority ["certs"] "site" "example.test".

(** A file system with the storage root present and empty. *)
Definition fs_empty_root : FS :=
  <[ ["certs"] := Dir 493 ]> (<[ [] := Dir 493 ]> ∅).

(** A file system with the four artifacts and an unrelated fifth file. *)
Definition fs_with_fifth : FS :=
  <[ ["certs"; "notes.txt"] := File "keep" 420 ]>
  (<[ ["certs"; "site.key"] := File "key" 420 ]>
  (<[ ["certs"; "site.csr"] := File "csr" 420 ]>
  (<[ ["certs"; "site.crt"] := File "crt" 420 ]>
  (<[ ["certs"; "site.conf"] := File "conf" 420 ]> fs_empty_root)))).

Definition world_of (fs0 : FS) (choices : list nat) : World unit :=
  mkWorld fs0 () choices 18.

(** ** The steps of the creation workflow *)

Inductive Step : Type :=
| Reset | EnsureDirectory | Generation | SigningRequest | Signing | Permissions.

Definition steps : list Step :=
  [Reset; EnsureDirectory; Generation; SigningRequest; Signing; Permissions].

Section CreateSteps.
Context {St : Type}.

Definition genrsa_args (c : Certificate.t) : list string :=
  [ "openssl"; "genrsa"; "-out"; path_str (Certificate.key_path c); "2048" ].

Definition req_args (c : Certificate.t) : list string :=
  [ "openssl"; "req"; "-new";
    "-key"; path_str (Certificate.key_path c);
    "-out"; path_str (Certificate.csr_path c);
    "-subj"; Certificate.subject c;
    "-config"; path_str (Certificate.conf_path c) ].

(** The parameters [create] builds for the signing invocation, given
    what the existence check of the serial file answered. *)
Definition x509_params (c : Certificate.t) (srl_exists : bool) : list string :=
  let a := Certificate._authority c in
  let params := [ "-req"; "-sha256"; "-days"; "730";
                  "-CA"; path_str (CertificationAuthority.pem_path a);
                  "-CAkey"; path_str (CertificationAuthority.key_path a);
                  "-CAserial"; path_str (CertificationAuthority.srl_path a) ] in
  let params := if negb srl_exists then params ++ ["-CAcreateserial"] else params in
  params ++ [ "-in"; path_str (Certificate.csr_path c);
              "-out"; path_str (Certificate.crt_path c);
              "-extensions"; "v3_req";
              "-extfile"; path_str (Certificate.conf_path c) ].

Definition x509_args (c : Certificate.t) (srl_exists : bool) : list string :=
  "openssl" :: "x509" :: x509_params c srl_exists.

(** The six steps of [create], each as a coroutine of its own. *)
Definition step_run (c : Certificate.t) (cmd : Cmd.t St) (s : Step) : M St unit :=
  match s with
  | Reset => Certificate.delete c
  | EnsureDirectory => AsyncPath.mkdir (Certificate._root_path c)
  | Generation =>
      bind (gather [ Certificate._build_certificate_conf c;
                     Certificate._create_private_key c cmd ]) (λ _, ret ())
  | SigningRequest => Certificate._create_signing_request c cmd
  | Signing =>
      bind (AsyncPath.exists_ (CertificationAuthority.srl_path (Certificate._authority c)))
           (λ srl_exists, Cmd.run cmd (x509_args c srl_exists))
  | Permissions =>
      bind (AsyncPath.chmod (Certificate.crt_path c) 420)
           (λ _, AsyncPath.chmod (Certificate.key_path c) 420)
  end.

(** Runs the stages in order, stopping at the first that raises. *)
Fixpoint run_stages (ms : list (M St unit)) : M St unit :=
  match ms with
  | [] => ret ()
  | m :: ms' => bind m (λ _, run_stages ms')
  end.

(** The first three steps of [create], up to the parallel generation. *)
Definition before_request (c : Certificate.t) (cmd : Cmd.t St) : M St unit :=
  run_stages (step_run c cmd <$> [Reset; EnsureDirectory; Generation]).

(** The first four steps of [create], up to the signing request. *)
Definition before_signing (c : Certificate.t) (cmd : Cmd.t St) : M St unit :=
  run_stages (step_run c cmd <$> [Reset; EnsureDirectory; Generation; SigningRequest]).
End CreateSteps.

(** The operations a step of [create] performs when nothing fails. The
    event loop chooses the order of the four unlinks and of the two tasks
    of the generation; the reset ends with the existence check of the
    root, the listing of its entries when it exists, and its removal when
    it has none. *)
Definition step_plan (c : Certificate.t) (s : Step) (plan : list Op) : Prop :=
  let root := Certificate._root_path c in
  match s with
  | Reset =>
      ∃ us tail, plan = (OpUnlink <$> us) ++ tail
        ∧ us ≡ₚ artifacts c
        ∧ tail ∈ [ [OpExists root];
                   [OpExists root; OpGlob root];
                   [OpExists root; OpGlob root; OpRmdir root] ]
  | EnsureDirectory => plan = [OpMkdir root]
  | Generation =>
      plan ≡ₚ [ OpWriteText (Certificate.conf_path c) (Certificate.conf_text c);
                OpRun (genrsa_args c) ]
  | SigningRequest => plan = [OpRun (req_args c)]
  | Signing =>
      ∃ srl_exists,
        plan = [ OpExists (CertificationAuthority.srl_path (Certificate._authority c));
                 OpRun (x509_args c srl_exists) ]
  | Permissions =>
      plan = [ OpChmod (Certificate.crt_path c) 420;
               OpChmod (Certificate.key_path c) 420 ]
  end.

(** No operation of the trace failed. *)
Definition clean (t : list Event) : Prop := Forall (λ ev, ev_failed ev = false) t.

(** The trace [t] of a run with result [r] follows the plan: a run that
    returned has performed the operations of the plan, all with success; a
    run that raised has performed the first operations of the plan, and
    the last one performed is the only one that failed, with the exception
    raised. *)
Definition follows (plan : list Op) (r : Result unit) (t : list Event) : Prop :=
  match r with
  | Ok _ => ev_op <$> t = plan ∧ clean t
  | Raise e =>
      ∃ t0 op, t = t0 ++ [Ev op (Failed e)] ∧ clean t0
               ∧ (ev_op <$> t) `prefix_of` plan
  end.

Section Discipline.
Context {St : Type}.

(** [m] keeps the property [J] of the file system. *)
Definition preserves {A : Type} (J : FS → Prop) (m : M St A) : Prop :=
  ∀ w, J (fs w) → J (fs (world (m w))).
End Discipline.

(** ** Example executors *)

(** The file each command of the workflow produces. *)
Definition out_path (c : Certificate.t) (args : list string) : option Path :=
  match args with
  | _ :: "genrsa" :: _ => Some (Certificate.key_path c)
  | _ :: "req" :: _ => Some (Certificate.csr_path c)
  | _ :: "x509" :: _ => Some (Certificate.crt_path c)
  | _ => None
  end.

(** An executor that succeeds and writes the file of the command. *)
Definition cmd_ok (c : Certificate.t) : Cmd.t unit :=
  Cmd.Build unit (λ args s f,
    match out_path c args with
    | Some p => (Ok (), s, <[p := File "pem" 384]> f)
    | None => (Raise (CmdError "usage"), s, f)
    end).

(** An executor whose signing-request step fails. *)
Definition cmd_csr_fails (c : Certificate.t) : Cmd.t unit :=
  Cmd.Build unit (λ args s f,
    match args with
    | _ :: "req" :: _ => (Raise (CmdError "req: unable to load key"), s, f)
    | _ => Cmd.exec (cmd_ok c) args s f
    end).

(** ** The configuration text, in parts *)

(** The fixed template, up to the first Subject Alternative Name. *)
Definition conf_head : string :=
  unlines [
    "[req]";
    "distinguished_name = req_distinguished_name";
    "req_extensions = v3_req";
    "";
    "[req_distinguished_name]";
    "countryName = Country Name (2 letter code)";
    "countryName_default = US";
    "stateOrProvinceName = State or Province Name (full name)";
    "stateOrProvinceName_default = MN";
    "localityName = Locality Name (eg, city)";
    "localityName_default = Minneapolis";
    "organizationalUnitName" +:+ tab +:+ "= Organizational Unit Name (eg, section)";
    "organizationalUnitName_default" +:+ tab +:+ "= Domain Control Validated";
    "commonName = Internet Widgits Ltd";
    "commonName_max" +:+ tab +:+ "= 64";
    "";
    "[ v3_req ]";
    "# Extensions to add to a certificate request";
    "basicConstraints = CA:FALSE";
    "keyUsage = nonRepudiation, digitalSignature, keyEncipherment";
    "subjectAltName = @alt_names";
    "";
    "[alt_names]";
    "DNS.1 = " ].

Definition conf_mid : string := nl +:+ "DNS.2 = *.".

(** ** DNS names and lines of text *)

(** A character of a DNS name: a letter, a digit, a hyphen or a dot. *)
Definition is_dns_char (c : ascii) : bool :=
  let n := N_of_ascii c in
  ((48 <=? n) && (n <=? 57) || (65 <=? n) && (n <=? 90)
   || (97 <=? n) && (n <=? 122) || (n =? 45) || (n =? 46))%N.

Fixpoint dns_name (s : string) : bool :=
  match s with
  | EmptyString => true
  | String c s' => is_dns_char c && dns_name s'
  end.

(** The lines of a text: what lies between its line feeds. *)
Fixpoint split_lines (s : string) : list string :=
  match s with
  | EmptyString => [EmptyString]
  | String c s' =>
      if Ascii.eqb c (ascii_of_nat 10) then EmptyString :: split_lines s'
      else match split_lines s' with
           | [] => [String c EmptyString]
           | l :: ls => String c l :: ls
           end
  end.

(** ** Further definitions used by the statements *)

(** The permission bits of a node. *)
Definition mode_of (n : Node) : N :=
  match n with
  | File _ mode => mode
  | Dir mode => mode
  end.

(** A file system where the storage root is a regular file. *)
Definition fs_root_is_file : FS :=
  <[ ["certs"] := File "not a directory" 420 ]> (<[ [] := Dir 493 ]> ∅).

Section Executors.
Context {St : Type}.

(** The executor never removes a path. *)
Definition keeps_paths (cmd : Cmd.t St) : Prop :=
  ∀ args st f q, is_Some (f !! q) → is_Some ((Cmd.exec cmd args st f).2 !! q).

(** A signing request that succeeds has written the request file. *)
Definition request_writes_csr (c : Certificate.t) (cmd : Cmd.t St) : Prop :=
  ∀ st f, (Cmd.exec cmd (req_args c) st f).1.1 = Ok () →
          is_Some ((Cmd.exec cmd (req_args c) st f).2 !! Certificate.csr_path c).

(** The executor leaves the path [q] as it is. *)
Definition leaves_alone (cmd : Cmd.t St) (q : Path) : Prop :=
  ∀ args st f, (Cmd.exec cmd args st f).2 !! q = f !! q.
End Executors.

(** ** Coroutines: sequencing *)

Section MonadFacts.
Context {St : Type}.
Implicit Types w : World St.

Lemma bind_cases {A B} (m : M St A) (f : A → M St B) w :
  (∃ a, result (m w) = Ok a
        ∧ result (bind m f w) = result (f a (world (m w)))
        ∧ world (bind m f w) = world (f a (world (m w)))
        ∧ trace (bind m f w) = (trace (m w) ++ trace (f a (world (m w))))%list)
  ∨ (∃ e, result (m w) = Raise e
        ∧ result (bind m f w) = Raise e
        ∧ world (bind m f w) = world (m w)
        ∧ trace (bind m f w) = trace (m w)).
Proof.
  unfold bind. destruct (result (m w)) as [a|e] eqn:Hr.
  - left. exists a. simpl. auto.
  - right. exists e. simpl. auto.
Qed.

Lemma bind_ok {A B} (m : M St A) (f : A → M St B) w a :
  result (m w) = Ok a →
  result (bind m f w) = result (f a (world (m w)))
  ∧ world (bind m f w) = world (f a (world (m w)))
  ∧ trace (bind m f w) = (trace (m w) ++ trace (f a (world (m w))))%list.
Proof. intros Hr. unfold bind. rewrite Hr. simpl. auto. Qed.

Lemma bind_raise {A B} (m : M St A) (f : A → M St B) w e :
  result (m w) = Raise e →
  result (bind m f w) = Raise e
  ∧ world (bind m f w) = world (m w)
  ∧ trace (bind m f w) = trace (m w).
Proof. intros Hr. unfold bind. rewrite Hr. simpl. auto. Qed.

Lemma bind_ret_l {A B} (a : A) (f : A → M St B) w : bind (ret a) f w = f a w.
Proof. unfold bind, ret. simpl. by destruct (f a w). Qed.

Lemma bind_assoc {A B C} (m : M St A) (f : A → M St B) (g : B → M St C) w :
  bind (bind m f) g w = bind m (λ a, bind (f a) g) w.
Proof.
  unfold bind. destruct (result (m w)) as [a|e]; simpl; [|done].
  destruct (result (f a (world (m w)))); simpl; [|done].
  by rewrite app_assoc.
Qed.

Lemma bind_ext {A B} (m : M St A) (f g : A → M St B) w :
  (∀ a, f a (world (m w)) = g a (world (m w))) → bind m f w = bind m g w.
Proof. intros H. unfold bind. destruct (result (m w)); [by rewrite H|done]. Qed.

(** Mapping a function over the value returned. *)
Lemma bind_ret_map {A B} (m : M St A) (f : A → B) w :
  bind m (λ a, ret (f a)) w =
  mkOutcome (match result (m w) with Ok a => Ok (f a) | Raise e => Raise e end)
            (world (m w)) (trace (m w)).
Proof. unfold bind, ret. destruct (result (m w)); cbn; by rewrite ?app_nil_r. Qed.

(** *** The scheduler of [gather] *)

Lemma bind_choose {B} n (f : nat → M St B) w :
  bind (choose n) f w = f (hd 0 (oracle w) `mod` n) (popped w).
Proof. unfold bind, choose, popped. simpl. by destruct (f _ _). Qed.

Lemma bind_tick {B} (f : unit → M St B) w : bind tick f w = f () (popped w).
Proof. unfold bind, tick, popped. simpl. by destruct (f _ _). Qed.

Lemma run_in_order_cons {A} i (t : M St A) rest w :
  run_in_order ((i, t) :: rest) w =
  bind t (λ a, bind (run_in_order rest) (λ done, ret ((i, a) :: done))) (popped w).
Proof. cbn [run_in_order]. by rewrite bind_tick. Qed.

(** The event loop runs the pending tasks in some order, and stops with
    the first that raises. *)
Lemma gather_loop_order {A} n (pending : list (nat * M St A)) w :
  length pending = n →
  ∃ order, order ≡ₚ pending ∧ gather_loop n pending w = run_in_order order w.
Proof.
  revert pending w. induction n as [|n IH]; intros pending w Hlen.
  - destruct pending; [|done]. by exists [].
  - assert (Hk : hd 0 (oracle w) `mod` length pending < length pending)
      by (apply Nat.mod_upper_bound; lia).
    destruct (lookup_lt_is_Some_2 _ _ Hk) as [[i t] Hit].
    destruct (IH (delete (hd 0 (oracle w) `mod` length pending) pending)
                 (world (t (popped w)))) as (order & Hperm & Heq).
    { rewrite length_delete; [lia|eauto]. }
    exists ((i, t) :: order). split.
    { rewrite Hperm. symmetry. by apply delete_Permutation. }
    rewrite run_in_order_cons. cbn [gather_loop]. rewrite bind_choose, Hit.
    apply bind_ext. intros a. unfold bind. by rewrite Heq.
Qed.

Lemma gather_run {A} (tasks : list (M St A)) w :
  ∃ order,
    order ≡ₚ zip (seq 0 (length tasks)) tasks
    ∧ gather tasks w =
      bind (run_in_order order) (λ done,
        match mapM (result_of done) (seq 0 (length tasks)) with
        | Some rs => ret rs
        | None => raise ValueError
        end) w.
Proof.
  destruct (gather_loop_order (length tasks) (zip (seq 0 (length tasks)) tasks) w)
    as (order & Hperm & Heq).
  { rewrite length_zip_with, length_seq. lia. }
  exists order. split; [done|]. unfold gather, bind. by rewrite Heq.
Qed.

Lemma family_order {X A} (f : X → M St A) (xs : list X) order :
  order ≡ₚ zip (seq 0 (length (f <$> xs))) (f <$> xs) →
  ∃ ixs, ixs ≡ₚ zip (seq 0 (length xs)) xs ∧ order = tagged f <$> ixs.
Proof.
  rewrite length_fmap.
  assert (Hz : ∀ l : list nat, zip l (f <$> xs) = map (tagged f) (zip l xs)).
  { induction xs as [|x xs IH]; intros [|i l]; simpl; try done.
    by rewrite IH. }
  rewrite Hz. intros Hperm.
  destruct (Permutation_map_inv _ _ Hperm) as (ixs & -> & Hixs).
  exists ixs. split; [by symmetry|done].
Qed.

Lemma result_of_elem {A} (done : list (nat * A)) i a :
  NoDup done.*1 → (i, a) ∈ done → result_of done i = Some a.
Proof.
  induction done as [|[j r] done IH]; intros Hnd Hin.
  - by apply elem_of_nil in Hin.
  - rewrite fmap_cons in Hnd. apply NoDup_cons in Hnd as [Hj Hnd].
    apply elem_of_cons in Hin as [[= <- <-]|Hin]; simpl.
    + by rewrite bool_decide_true.
    + rewrite bool_decide_false; [by apply IH|].
      intros ->. apply Hj. apply list_elem_of_fmap. by exists (i, a).
Qed.

(** Whatever the order of completion, the values come back in the order
    of the tasks. *)
Lemma results_in_task_order {X A} (v : X → A) (xs : list X) (ixs : list (nat * X)) :
  ixs ≡ₚ zip (seq 0 (length xs)) xs →
  mapM (result_of ((λ ix, (ix.1, v ix.2)) <$> ixs)) (seq 0 (length xs))
  = Some (v <$> xs).
Proof.
  intros Hperm. apply mapM_Some.
  assert (Hnd : NoDup ((λ ix : nat * X, (ix.1, v ix.2)) <$> ixs).*1).
  { assert (((λ ix : nat * X, (ix.1, v ix.2)) <$> ixs).*1 = ixs.*1) as ->.
    { clear. induction ixs as [|[i x] ixs IH]; [done|].
      rewrite !fmap_cons. by f_equal. }
    rewrite Hperm, fst_zip by (rewrite length_seq; lia). apply NoDup_seq. }
  apply Forall2_same_length_lookup_2.
  { rewrite length_seq, length_fmap. done. }
  intros j i y Hi Hy. apply lookup_seq in Hi as [-> Hj]. simpl.
  apply list_lookup_fmap_Some in Hy as (x & -> & Hx).
  apply result_of_elem; [done|].
  apply list_elem_of_fmap. exists (j, x). split; [done|].
  rewrite Hperm. apply list_elem_of_lookup. exists j.
  rewrite lookup_zip_with, lookup_seq_lt by done. simpl.
  by rewrite Hx.
Qed.

End MonadFacts.

(** ** The file system *)

Section FileSystemFacts.
Implicit Types (f : FS) (p q d : Path).

Lemma unlinked_idemp (n : option Node) : unlinked (unlinked n) = unlinked n.
Proof. by destruct n as [[]|]. Qed.

Lemma unlink_fs_lookup p f q :
  unlink_fs p f !! q = if bool_decide (q = p) then unlinked (f !! q) else f !! q.
Proof.
  unfold unlink_fs. case_bool_decide as Hq; subst.
  - destruct (f !! p) as [[]|] eqn:Hp; simpl; rewrite ?lookup_delete_eq, ?Hp; done.
  - destruct (f !! p) as [[]|]; rewrite ?lookup_delete_ne; done.
Qed.

Lemma unlink_all_lookup ps f q :
  unlink_all ps f !! q =
  if bool_decide (q ∈ ps) then unlinked (f !! q) else f !! q.
Proof.
  revert f. induction ps as [|p ps IH]; intros f; cbn [unlink_all].
  - rewrite bool_decide_false; [done|apply not_elem_of_nil].
  - rewrite IH, unlink_fs_lookup.
    destruct (decide (q = p)) as [->|Hne].
    + rewrite (bool_decide_true (p = p)), (bool_decide_true (p ∈ p :: ps)) by (done || by left).
      rewrite unlinked_idemp. by case_bool_decide.
    + rewrite (bool_decide_false (q = p)) by done.
      rewrite (bool_decide_ext (q ∈ p :: ps) (q ∈ ps)); [done|].
      rewrite elem_of_cons. split; [by intros [?|?]|by right].
Qed.

Lemma unlink_all_perm ps ps' f : ps ≡ₚ ps' → unlink_all ps f = unlink_all ps' f.
Proof.
  intros Hperm. apply map_eq. intros q. rewrite !unlink_all_lookup.
  rewrite (bool_decide_ext (q ∈ ps) (q ∈ ps')); [done|]. by rewrite Hperm.
Qed.

(** *** Resolution *)

Lemma ancestors_joinpath d s : ancestors (d </> s) = ancestors d ++ [d].
Proof.
  unfold ancestors, joinpath. rewrite length_app. cbn [length].
  rewrite Nat.add_1_r, seq_S, fmap_app. cbn [fmap list_fmap Nat.add].
  rewrite take_app_length. f_equal.
  apply list_fmap_ext. intros i n Hn. apply lookup_seq in Hn as [-> Hlt].
  cbn [Nat.add]. apply take_app_le. lia.
Qed.

Lemma ancestor_shorter p q : p ∈ ancestors q → length p < length q.
Proof.
  unfold ancestors. intros (n & -> & Hn)%list_elem_of_fmap.
  apply elem_of_seq in Hn. rewrite length_take. lia.
Qed.

Lemma blocked_joinpath f d s : blocked f (d </> s) = blocked f d || is_file f d.
Proof.
  unfold blocked. rewrite ancestors_joinpath, existsb_app. cbn [existsb].
  by rewrite orb_false_r.
Qed.

(** Two file systems that agree on the ancestors of [q] that are files
    block [q] alike. *)
Lemma blocked_ext f f' q :
  (∀ p, p ∈ ancestors q → is_file f' p = is_file f p) →
  blocked f' q = blocked f q.
Proof.
  unfold blocked. induction (ancestors q) as [|p l IH]; intros H; [done|].
  cbn [existsb]. rewrite H by (by left). f_equal. apply IH.
  intros p' Hp'. apply H. by right.
Qed.

Lemma is_file_unlink_fs p f q : q ≠ p → is_file (unlink_fs p f) q = is_file f q.
Proof. intros Hq. unfold is_file. by rewrite unlink_fs_lookup, bool_decide_false. Qed.

Lemma blocked_unlink_fs p f q :
  (length q ≤ length p)%nat → blocked (unlink_fs p f) q = blocked f q.
Proof.
  intros Hlen. apply blocked_ext. intros r Hr. apply is_file_unlink_fs.
  intros ->. apply ancestor_shorter in Hr. lia.
Qed.

Lemma is_dir_unlink_fs p f q :
  (length q ≤ length p)%nat → is_dir (unlink_fs p f) q = is_dir f q.
Proof.
  intros Hlen. unfold is_dir. rewrite blocked_unlink_fs, unlink_fs_lookup by done.
  case_bool_decide; [|done]. by destruct (f !! q) as [[]|].
Qed.

Lemma unlink_result_unlink_fs p f q :
  (length q ≤ length p)%nat → unlink_result (unlink_fs p f) q = unlink_result f q.
Proof.
  intros Hlen. unfold unlink_result.
  by rewrite blocked_unlink_fs, is_dir_unlink_fs.
Qed.

Lemma blocked_unlink_all ps f q :
  Forall (λ p, (length q ≤ length p)%nat) ps →
  blocked (unlink_all ps f) q = blocked f q.
Proof.
  intros Hps. revert f. induction Hps as [|p ps Hp _ IH]; intros f; [done|].
  cbn [unlink_all]. by rewrite IH, blocked_unlink_fs.
Qed.

Lemma is_dir_unlink_all ps f q :
  Forall (λ p, (length q ≤ length p)%nat) ps →
  is_dir (unlink_all ps f) q = is_dir f q.
Proof.
  intros Hps. revert f. induction Hps as [|p ps Hp _ IH]; intros f; [done|].
  cbn [unlink_all]. by rewrite IH, is_dir_unlink_fs.
Qed.

Lemma unlink_result_ok f p : unlink_result f p = Ok () ↔ unlinkable f p.
Proof.
  unfold unlink_result, unlinkable.
  destruct (blocked f p), (is_dir f p) eqn:Hd; split; try done; intros []; done.
Qed.

Lemma unlink_result_raise f p e :
  unlink_result f p = Raise e →
  (blocked f p = true ∧ e = NotADirectoryError p)
  ∨ (blocked f p = false ∧ is_dir f p = true ∧ e = IsADirectoryError p).
Proof.
  unfold unlink_result. destruct (blocked f p); [intros [= <-]; auto|].
  destruct (is_dir f p); [intros [= <-]; auto|done].
Qed.

(** *** Entries *)

Lemma elem_of_entries f d q :
  q ∈ entries f d ↔ parent q = Some d ∧ is_Some (f !! q).
Proof.
  unfold entries. rewrite list_elem_of_filter, list_elem_of_fmap.
  split.
  - intros (Hp & [k n] & -> & Hin). apply elem_of_map_to_list in Hin.
    simpl in *. eauto.
  - intros (Hp & n & Hn). split; [done|]. exists (q, n). split; [done|].
    by apply elem_of_map_to_list.
Qed.

Lemma entries_nil f d :
  entries f d = [] ↔ ∀ q, parent q = Some d → f !! q = None.
Proof.
  split.
  - intros Hnil q Hp. destruct (f !! q) eqn:Hq; [|done].
    assert (q ∈ entries f d) as Hin by (apply elem_of_entries; eauto).
    rewrite Hnil in Hin. by apply elem_of_nil in Hin.
  - intros H. apply elem_of_nil_inv. intros q (Hp & Hs)%elem_of_entries.
    rewrite (H q Hp) in Hs. by destruct Hs.
Qed.

Lemma parent_joinpath d s : parent (d </> s) = Some d.
Proof.
  unfold parent, joinpath. rewrite removelast_last.
  by destruct d.
Qed.

(** *** The artifact paths *)

Lemma artifact_joinpath c p :
  p ∈ artifacts c → ∃ s, p = Certificate._root_path c </> s.
Proof.
  unfold artifacts. rewrite !elem_of_cons, elem_of_nil.
  intros [->|[->|[->|[->|[]]]]]; eexists; reflexivity.
Qed.

Lemma artifact_parent c p :
  p ∈ artifacts c → parent p = Some (Certificate._root_path c).
Proof. intros (s & ->)%artifact_joinpath. apply parent_joinpath. Qed.

Lemma artifact_length c p :
  p ∈ artifacts c → length p = S (length (Certificate._root_path c)).
Proof.
  intros (s & ->)%artifact_joinpath. unfold joinpath.
  rewrite length_app. cbn. lia.
Qed.

Lemma artifacts_length c :
  Forall (λ p, length p = S (length (Certificate._root_path c))) (artifacts c).
Proof. apply Forall_forall. intros p. apply artifact_length. Qed.

Lemma root_not_artifact c : Certificate._root_path c ∉ artifacts c.
Proof.
  intros H%artifact_length. lia.
Qed.

Lemma key_is_artifact c : Certificate.key_path c ∈ artifacts c.
Proof. unfold artifacts. by left. Qed.

(** An artifact resolves exactly when the root does and is no file. *)
Lemma artifact_blocked c f p :
  p ∈ artifacts c →
  blocked f p = blocked f (Certificate._root_path c)
                || is_file f (Certificate._root_path c).
Proof. intros (s & ->)%artifact_joinpath. apply blocked_joinpath. Qed.

Lemma unlinkable_root c f :
  Forall (unlinkable f) (artifacts c) →
  blocked f (Certificate._root_path c) = false
  ∧ is_file f (Certificate._root_path c) = false.
Proof.
  intros H. rewrite Forall_forall in H.
  destruct (H _ (key_is_artifact c)) as [Hb _].
  rewrite (artifact_blocked c) in Hb by apply key_is_artifact.
  by apply orb_false_iff in Hb.
Qed.

End FileSystemFacts.

(** ** The primitive operations *)

Section PrimitiveFacts.
Context {St : Type}.
Implicit Types w : World St.

Lemma unlink_run p w :
  AsyncPath.unlink p true w =
  mkOutcome (unlink_result (fs w) p)
            (AsyncPath.set_fs w (match unlink_result (fs w) p with
                                 | Ok _ => unlink_fs p (fs w)
                                 | Raise _ => fs w
                                 end))
            [Ev (OpUnlink p) (answer_of (unlink_result (fs w) p))].
Proof.
  unfold AsyncPath.unlink, unlink_result, unlink_fs, is_dir.
  destruct (blocked (fs w) p); [done|]. cbn [negb andb].
  by destruct (fs w !! p) as [[]|].
Qed.

(** The unlinks of same-depth paths, run in order: those of [done]
    returned, and the first of [rest], if any, raised. *)
Lemma run_in_order_unlinks n (ips : list (nat * Path)) w :
  Forall (λ ip, length ip.2 = n) ips →
  let o := run_in_order (tagged (λ p, AsyncPath.unlink p true) <$> ips) w in
  cmd_state (world o) = cmd_state w
  ∧ umask (world o) = umask w
  ∧ ∃ done rest, ips = done ++ rest
      ∧ Forall (λ ip, unlink_result (fs w) ip.2 = Ok ()) done
      ∧ fs (world o) = unlink_all done.*2 (fs w)
      ∧ match rest with
        | [] => result o = Ok ((λ ip, (ip.1, ())) <$> ips)
                ∧ trace o = unlink_done <$> done
        | ip :: _ =>
            ∃ e, unlink_result (fs w) ip.2 = Raise e
                 ∧ result o = Raise e
                 ∧ trace o = (unlink_done <$> done) ++ [Ev (OpUnlink ip.2) (Failed e)]
        end.
Proof.
  intros Hlen. revert w. induction Hlen as [|[i p] ips Hp Hlen IH]; intros w.
  { cbn. split; [done|]. split; [done|]. by exists [], []. }
  cbn zeta. cbn [fst snd] in Hp.
  set (k := λ a : unit,
         bind (St:=St) (run_in_order (tagged (λ p, AsyncPath.unlink p true) <$> ips))
              (λ done, ret ((i, a) :: done))).
  assert (Heq : run_in_order (tagged (λ p, AsyncPath.unlink p true) <$> (i, p) :: ips) w
                = bind (AsyncPath.unlink p true) k (popped w))
    by (rewrite fmap_cons; apply run_in_order_cons).
  rewrite Heq. clear Heq.
  destruct (unlink_result (fs w) p) as [[]|e] eqn:Hres.
  - assert (Hr : result (AsyncPath.unlink p true (popped w)) = Ok ())
      by (by rewrite unlink_run; cbn [result fs popped]; rewrite Hres).
    destruct (bind_ok _ k _ _ Hr) as (-> & -> & ->).
    rewrite unlink_run. cbn [world trace fs popped]. rewrite Hres. cbn [answer_of].
    unfold k. rewrite bind_ret_map. cbn [result world trace].
    specialize (IH (AsyncPath.set_fs (popped w) (unlink_fs p (fs w)))).
    cbn zeta in IH. cbn [fs cmd_state umask AsyncPath.set_fs popped] in IH.
    destruct IH as (Hc & Hu & done & rest & -> & Hdone & Hfs & Hrest).
    split; [done|]. split; [done|].
    exists ((i, p) :: done), rest. split; [done|].
    assert (Hinv : ∀ ip, ip ∈ done ++ rest →
              unlink_result (unlink_fs p (fs w)) ip.2 = unlink_result (fs w) ip.2).
    { intros ip Hin. apply unlink_result_unlink_fs.
      pose proof (proj1 (Forall_forall _ _) Hlen ip Hin) as Hip.
      rewrite Hp. apply Nat.eq_le_incl. exact Hip. }
    split; [|split; [by rewrite Hfs|]].
    + constructor; [done|]. apply Forall_forall. intros ip Hin.
      rewrite Forall_forall in Hdone. rewrite <- Hinv; [by apply Hdone|].
      apply elem_of_app. by left.
    + destruct rest as [|ip rest].
      * destruct Hrest as [-> ->]. by rewrite !fmap_cons.
      * destruct Hrest as (e & He & -> & ->). exists e.
        rewrite <- Hinv; [done|]. rewrite elem_of_app, elem_of_cons. auto.
  - assert (Hr : result (AsyncPath.unlink p true (popped w)) = Raise e)
      by (by rewrite unlink_run; cbn [result fs popped]; rewrite Hres).
    destruct (bind_raise _ k _ _ Hr) as (-> & -> & ->).
    rewrite unlink_run. cbn [world trace fs popped cmd_state umask AsyncPath.set_fs].
    rewrite Hres. split; [done|]. split; [done|].
    exists [], ((i, p) :: ips). split; [done|]. split; [constructor|].
    split; [done|]. exists e. done.
Qed.

Lemma exists_run p w :
  AsyncPath.exists_ p w =
  mkOutcome (Ok (present (fs w) p)) w [Ev (OpExists p) (Found (present (fs w) p))].
Proof. reflexivity. Qed.

Lemma run_in_order_exists (ips : list (nat * Path)) w :
  let o := run_in_order (tagged AsyncPath.exists_ <$> ips) w in
  result o = Ok ((λ ip, (ip.1, present (fs w) ip.2)) <$> ips)
  ∧ fs (world o) = fs w
  ∧ cmd_state (world o) = cmd_state w
  ∧ umask (world o) = umask w
  ∧ trace o = (λ ip, Ev (OpExists ip.2) (Found (present (fs w) ip.2))) <$> ips.
Proof.
  revert w. induction ips as [|[i p] ips IH]; intros w; [done|].
  cbn zeta.
  set (k := λ a : bool,
         bind (St:=St) (run_in_order (tagged AsyncPath.exists_ <$> ips))
              (λ done, ret ((i, a) :: done))).
  assert (Heq : run_in_order (tagged AsyncPath.exists_ <$> (i, p) :: ips) w
                = bind (AsyncPath.exists_ p) k (popped w))
    by (rewrite fmap_cons; apply run_in_order_cons).
  rewrite Heq. clear Heq.
  assert (Hr : result (AsyncPath.exists_ p (popped w)) = Ok (present (fs w) p))
    by done.
  destruct (bind_ok _ k _ _ Hr) as (-> & -> & ->).
  rewrite exists_run. cbn [world trace fs popped].
  unfold k. rewrite bind_ret_map. cbn [result world trace].
  specialize (IH (popped w)). cbn zeta in IH.
  destruct IH as (-> & -> & -> & -> & ->). by rewrite !fmap_cons.
Qed.

End PrimitiveFacts.

(** ** Joined operations *)

Section GatherFacts.
Context {St : Type}.
Implicit Types w : World St.

Lemma gather_exists (ps : list Path) w :
  let o := gather (AsyncPath.exists_ <$> ps) w in
  result o = Ok (present (fs w) <$> ps)
  ∧ fs (world o) = fs w
  ∧ cmd_state (world o) = cmd_state w
  ∧ umask (world o) = umask w.
Proof.
  destruct (gather_run (AsyncPath.exists_ <$> ps) w) as (order & Hperm & Hg).
  apply family_order in Hperm as (ixs & Hixs & ->).
  destruct (run_in_order_exists ixs w) as (Hd & Hfs & Hc & Hu & _).
  cbn zeta. rewrite Hg.
  match goal with |- context [bind _ ?k w] =>
    destruct (bind_ok _ k w _ Hd) as (-> & -> & _) end.
  rewrite length_fmap, (results_in_task_order (present (fs w)) ps ixs Hixs).
  done.
Qed.

(** The joined unlinks of same-depth paths: the event loop ran those of
    [done], which returned, and then the first of [rest], if any, which
    raised. *)
Lemma gather_unlinks n (ps : list Path) w :
  Forall (λ p, length p = n) ps →
  let o := gather ((λ p, AsyncPath.unlink p true) <$> ps) w in
  cmd_state (world o) = cmd_state w
  ∧ umask (world o) = umask w
  ∧ ∃ done rest, done ++ rest ≡ₚ zip (seq 0 (length ps)) ps
      ∧ Forall (λ ip, unlink_result (fs w) ip.2 = Ok ()) done
      ∧ fs (world o) = unlink_all done.*2 (fs w)
      ∧ match rest with
        | [] => (∃ rs, result o = Ok rs) ∧ trace o = unlink_done <$> done
        | ip :: _ =>
            ∃ e, unlink_result (fs w) ip.2 = Raise e
                 ∧ result o = Raise e
                 ∧ trace o = (unlink_done <$> done) ++ [Ev (OpUnlink ip.2) (Failed e)]
        end.
Proof.
  intros Hlen.
  destruct (gather_run ((λ p, AsyncPath.unlink p true) <$> ps) w)
    as (order & Hperm & Hg).
  apply family_order in Hperm as (ixs & Hixs & ->).
  assert (Hlen' : Forall (λ ip : nat * Path, length ip.2 = n) ixs).
  { apply Forall_forall. intros [i p] Hin. cbn.
    rewrite Forall_forall in Hlen. apply Hlen.
    rewrite Hixs in Hin. by apply elem_of_zip_r in Hin. }
  destruct (run_in_order_unlinks n ixs w Hlen')
    as (Hc & Hu & done & rest & Hsplit & Hdone & Hfs & Hrest).
  cbn zeta. rewrite Hg.
  match goal with |- context [bind _ ?k w] => set (K := k) end.
  destruct rest as [|ip rest].
  - destruct Hrest as [Hr Ht].
    destruct (bind_ok _ K w _ Hr) as (-> & -> & ->).
    unfold K.
    rewrite length_fmap, (results_in_task_order (λ _, ()) ps ixs Hixs).
    cbn [ret result world trace]. rewrite app_nil_r, Hc, Hu, Hfs, Ht.
    split; [done|]. split; [done|]. exists done, [].
    rewrite <- Hsplit. eauto 10.
  - destruct Hrest as (e & He & Hr & Ht).
    destruct (bind_raise _ K w _ Hr) as (-> & -> & ->).
    rewrite Hc, Hu, Hfs, Ht.
    split; [done|]. split; [done|]. exists done, (ip :: rest).
    rewrite <- Hsplit. eauto 10.
Qed.

(** Once the unlinks have returned, the rest of [delete] cannot fail. *)
Lemma remove_root_if_empty_run (root : Path) w :
  blocked (fs w) root = false →
  is_file (fs w) root = false →
  let o := remove_root_if_empty root w in
  cmd_state (world o) = cmd_state w
  ∧ umask (world o) = umask w
  ∧ result o = Ok ()
  ∧ fs (world o) = cleanup_fs root (fs w)
  ∧ trace o = cleanup_trace root (fs w).
Proof.
  intros Hb Hf.
  unfold remove_root_if_empty, bind, AsyncPath.exists_, AsyncPath.glob_star,
    AsyncPath.rmdir, cleanup_fs, cleanup_trace, is_dir, is_file in *.
  cbn [result world trace fs cmd_state umask].
  rewrite Hb. cbn [negb andb].
  destruct (fs w !! root) as [[content mode|mode]|] eqn:Hroot; [done| |].
  - rewrite bool_decide_true by eauto. cbn.
    destruct (entries (fs w) root) as [|q l] eqn:Hent.
    + do 2 (cbn; rewrite ?Hroot, ?Hent, ?Hb). done.
    + do 2 (cbn; rewrite ?Hroot, ?Hent, ?Hb). done.
  - rewrite bool_decide_false by (by intros [? ?]). cbn. done.
Qed.

Lemma exists_outcome (c : Certificate.t) w :
  let o := Certificate.exists_ c w in
  result o = Ok (present (fs w) (Certificate.key_path c)
                 && present (fs w) (Certificate.csr_path c)
                 && present (fs w) (Certificate.crt_path c)
                 && present (fs w) (Certificate.conf_path c))
  ∧ fs (world o) = fs w
  ∧ cmd_state (world o) = cmd_state w
  ∧ umask (world o) = umask w.
Proof.
  cbn zeta. unfold Certificate.exists_.
  destruct (gather_exists (artifacts c) w) as (Hr & Hfs & Hc & Hu).
  match goal with |- context [bind _ ?k w] =>
    destruct (bind_ok (gather (AsyncPath.exists_ <$> artifacts c)) k w _ Hr)
      as (Hr' & Hw' & _) end.
  change (gather [AsyncPath.exists_ (Certificate.key_path c);
                  AsyncPath.exists_ (Certificate.csr_path c);
                  AsyncPath.exists_ (Certificate.crt_path c);
                  AsyncPath.exists_ (Certificate.conf_path c)])
    with (gather (St:=St) (AsyncPath.exists_ <$> artifacts c)).
  rewrite Hr', Hw'. done.
Qed.

End GatherFacts.

(** ** Facts on the deletion workflow *)

Section DeleteFacts.
Context {St : Type}.
Implicit Types (w : World St) (f : FS) (p q : Path).

Lemma schedule_paths (ps : list Path) (ixs : list (nat * Path)) :
  ixs ≡ₚ zip (seq 0 (length ps)) ps → ixs.*2 ≡ₚ ps.
Proof. intros ->. rewrite snd_zip; [done|]. rewrite length_seq. lia. Qed.

(** What [delete] does: the event loop ran the unlinks of [done], which
    returned, and then either that of the first of [rest], which raised,
    or, none being left, the removal of the root when it is empty. *)
Lemma delete_outcome (c : Certificate.t) w :
  let o := Certificate.delete c w in
  let root := Certificate._root_path c in
  cmd_state (world o) = cmd_state w
  ∧ umask (world o) = umask w
  ∧ ∃ done rest, (done ++ rest).*2 ≡ₚ artifacts c
      ∧ Forall (λ ip, unlink_result (fs w) ip.2 = Ok ()) done
      ∧ match rest with
        | [] =>
            let fs1 := unlink_all (artifacts c) (fs w) in
            Forall (unlinkable (fs w)) (artifacts c)
            ∧ result o = Ok ()
            ∧ fs (world o) = cleanup_fs root fs1
            ∧ trace o = (unlink_done <$> done) ++ cleanup_trace root fs1
        | ip :: _ =>
            ∃ e, unlink_result (fs w) ip.2 = Raise e
                 ∧ result o = Raise e
                 ∧ fs (world o) = unlink_all done.*2 (fs w)
                 ∧ trace o = (unlink_done <$> done) ++ [Ev (OpUnlink ip.2) (Failed e)]
        end.
Proof.
  cbn zeta.
  change (Certificate.delete c w) with
    (bind (gather ((λ p, AsyncPath.unlink p true) <$> artifacts c))
          (λ _, remove_root_if_empty (Certificate._root_path c)) w).
  destruct (gather_unlinks _ (artifacts c) w (artifacts_length c))
    as (Hc & Hu & done & rest & Hperm & Hdone & Hfs & Hrest).
  apply schedule_paths in Hperm.
  destruct rest as [|ip rest].
  - destruct Hrest as [[rs Hr] Ht].
    assert (Hall : Forall (unlinkable (fs w)) (artifacts c)).
    { rewrite <- Hperm, app_nil_r. apply Forall_fmap.
      eapply Forall_impl; [exact Hdone|]. intros ip. apply unlink_result_ok. }
    rewrite app_nil_r in Hperm. rewrite (unlink_all_perm _ _ _ Hperm) in Hfs.
    destruct (unlinkable_root c _ Hall) as [Hb Hf].
    destruct (bind_ok _ (λ _, remove_root_if_empty (Certificate._root_path c)) _ _ Hr)
      as (-> & -> & ->).
    destruct (remove_root_if_empty_run (Certificate._root_path c)
                (world (gather ((λ p, AsyncPath.unlink p true) <$> artifacts c) w)))
      as (-> & -> & -> & -> & ->).
    + rewrite Hfs, blocked_unlink_all; [done|].
      eapply Forall_impl; [apply artifacts_length|]. intros p ->. cbn. lia.
    + rewrite Hfs. unfold is_file in *.
      by rewrite unlink_all_lookup, bool_decide_false by apply root_not_artifact.
    + rewrite Hfs, Ht. split; [done|]. split; [done|].
      exists done, []. rewrite app_nil_r. done.
  - destruct Hrest as (e & He & Hr & Ht).
    destruct (bind_raise _ (λ _, remove_root_if_empty (Certificate._root_path c)) _ _ Hr)
      as (-> & -> & ->).
    split; [done|]. split; [done|]. exists done, (ip :: rest).
    split; [done|]. split; [done|]. exists e. done.
Qed.

(** [delete] returns exactly when each of the four unlinks does. *)
Lemma delete_ok_iff (c : Certificate.t) w :
  result (Certificate.delete c w) = Ok () ↔ Forall (unlinkable (fs w)) (artifacts c).
Proof.
  destruct (delete_outcome c w) as (_ & _ & done & rest & Hperm & _ & Hrest).
  destruct rest as [|ip rest].
  - destruct Hrest as (Hall & Hr & _). by split.
  - destruct Hrest as (e & He & Hr & _). rewrite Hr. split; [done|].
    intros Hall. rewrite Forall_forall in Hall.
    assert (Hin : ip.2 ∈ artifacts c).
    { rewrite <- Hperm, fmap_app, fmap_cons, elem_of_app, elem_of_cons. auto. }
    apply Hall, unlink_result_ok in Hin. congruence.
Qed.

Lemma delete_ok (c : Certificate.t) w :
  Forall (unlinkable (fs w)) (artifacts c) →
  let o := Certificate.delete c w in
  result o = Ok ()
  ∧ fs (world o) = cleanup_fs (Certificate._root_path c)
                     (unlink_all (artifacts c) (fs w))
  ∧ cmd_state (world o) = cmd_state w.
Proof.
  intros Hall. cbn zeta.
  pose proof (proj2 (delete_ok_iff c w) Hall) as Hok.
  destruct (delete_outcome c w) as (Hc & _ & done & rest & _ & _ & Hrest).
  destruct rest as [|ip rest].
  - destruct Hrest as (_ & _ & Hfs & _). done.
  - destruct Hrest as (e & _ & Hr & _). congruence.
Qed.

(** When [delete] raises, it is in one of the unlinks, after some of the
    others. *)
Lemma delete_raise (c : Certificate.t) w e :
  result (Certificate.delete c w) = Raise e →
  ∃ p done, p ∈ artifacts c ∧ done ⊆ artifacts c
    ∧ unlink_result (fs w) p = Raise e
    ∧ fs (world (Certificate.delete c w)) = unlink_all done (fs w)
    ∧ trace (Certificate.delete c w)
      = ((λ q, Ev (OpUnlink q) Done) <$> done) ++ [Ev (OpUnlink p) (Failed e)].
Proof.
  intros Hraise.
  destruct (delete_outcome c w) as (_ & _ & done & rest & Hperm & _ & Hrest).
  destruct rest as [|ip rest].
  - destruct Hrest as (_ & Hr & _). congruence.
  - destruct Hrest as (e' & He & Hr & Hfs & Ht).
    assert (e' = e) as -> by congruence.
    exists ip.2, done.*2. rewrite fmap_app, fmap_cons in Hperm.
    split; [|split; [|split; [done|split; [done|]]]].
    + rewrite <- Hperm, elem_of_app, elem_of_cons. auto.
    + intros q Hq. rewrite <- Hperm, elem_of_app. auto.
    + rewrite Ht. f_equal. by rewrite <- list_fmap_compose.
Qed.

Lemma unlinked_absent f p : is_dir f p = false → blocked f p = false →
  unlinked (f !! p) = None.
Proof.
  unfold is_dir. intros Hd Hb. rewrite Hb in Hd. cbn in Hd.
  by destruct (f !! p) as [[]|].
Qed.

Lemma unlink_all_artifacts_lookup c f q :
  Forall (unlinkable f) (artifacts c) →
  unlink_all (artifacts c) f !! q =
  if bool_decide (q ∈ artifacts c) then None else f !! q.
Proof.
  intros Hnd. rewrite unlink_all_lookup. case_bool_decide as Hq; [|done].
  rewrite Forall_forall in Hnd. destruct (Hnd q Hq). by apply unlinked_absent.
Qed.

Lemma unlink_all_root c f :
  unlink_all (artifacts c) f !! Certificate._root_path c
  = f !! Certificate._root_path c.
Proof.
  rewrite unlink_all_lookup, bool_decide_false; [done|apply root_not_artifact].
Qed.

Lemma unlink_all_absent c f :
  Forall (λ p, f !! p = None) (artifacts c) → unlink_all (artifacts c) f = f.
Proof.
  intros Habs. apply map_eq. intros q. rewrite unlink_all_lookup.
  case_bool_decide as Hq; [|done].
  rewrite Forall_forall in Habs. by rewrite (Habs q Hq).
Qed.

Lemma is_dir_root_unlink_all c f :
  is_dir (unlink_all (artifacts c) f) (Certificate._root_path c)
  = is_dir f (Certificate._root_path c).
Proof.
  apply is_dir_unlink_all.
  eapply Forall_impl; [apply artifacts_length|]. intros p ->. cbn. lia.
Qed.

(** Where the root resolves and is no file, it is a directory as soon as
    it is present. *)
Lemma is_dir_root_present f root :
  blocked f root = false → is_file f root = false →
  is_dir f root = bool_decide (is_Some (f !! root)).
Proof.
  unfold is_dir, is_file. intros -> Hf. cbn.
  destruct (f !! root) as [[]|]; try done.
Qed.

Lemma cleanup_fs_lookup root f q :
  cleanup_fs root f !! q =
  if is_dir f root && bool_decide (entries f root = []) && bool_decide (q = root)
  then None else f !! q.
Proof.
  unfold cleanup_fs. destruct (is_dir f root && bool_decide (entries f root = [])); [|done].
  cbn. case_bool_decide; subst; [apply lookup_delete_eq|by apply lookup_delete_ne].
Qed.

Lemma cleanup_fs_idemp root f : cleanup_fs root (cleanup_fs root f) = cleanup_fs root f.
Proof.
  unfold cleanup_fs.
  destruct (is_dir f root && bool_decide (entries f root = [])) eqn:Hc.
  - unfold is_dir. by rewrite lookup_delete_eq, andb_false_r.
  - by rewrite Hc.
Qed.

Lemma entries_after_unlinks c f :
  Forall (unlinkable f) (artifacts c) →
  entries (unlink_all (artifacts c) f) (Certificate._root_path c) = [] ↔
  ∀ q, parent q = Some (Certificate._root_path c) → is_Some (f !! q) → q ∈ artifacts c.
Proof.
  intros Hnd. rewrite entries_nil. split; intros H q Hp.
  - intros Hs. specialize (H q Hp). rewrite unlink_all_artifacts_lookup in H by done.
    case_bool_decide; [done|]. rewrite H in Hs. by destruct Hs.
  - rewrite unlink_all_artifacts_lookup by done. case_bool_decide as Hq; [done|].
    destruct (f !! q) eqn:Hfq; [|done]. exfalso. apply Hq, H; eauto.
Qed.

(** Once [delete] has returned, no artifact is left. *)
Lemma delete_ok_absent c w p :
  result (Certificate.delete c w) = Ok () → p ∈ artifacts c →
  fs (world (Certificate.delete c w)) !! p = None.
Proof.
  intros Hr Hp. apply delete_ok_iff in Hr.
  destruct (delete_ok c w Hr) as (_ & -> & _).
  rewrite cleanup_fs_lookup, unlink_all_artifacts_lookup by done.
  rewrite (bool_decide_true (p ∈ artifacts c)) by done. by destruct (_ && _ && _).
Qed.

(** [delete] touches the artifacts and the root only. *)
Lemma delete_lookup_other c w q :
  q ∉ artifacts c → q ≠ Certificate._root_path c →
  fs (world (Certificate.delete c w)) !! q = fs w !! q.
Proof.
  intros Hq Hne.
  destruct (result (Certificate.delete c w)) as [[]|e] eqn:Hr.
  - apply delete_ok_iff in Hr. destruct (delete_ok c w Hr) as (_ & -> & _).
    rewrite cleanup_fs_lookup, (bool_decide_false (q = _)), andb_false_r by done.
    by rewrite unlink_all_lookup, bool_decide_false.
  - apply delete_raise in Hr as (p & done & _ & Hsub & _ & -> & _).
    rewrite unlink_all_lookup, bool_decide_false; [done|].
    intros Hin. by apply Hq, Hsub.
Qed.

End DeleteFacts.

(** ** The creation workflow, step by step *)

Section StageFacts.
Context {St : Type}.
Implicit Types (w : World St) (c : Certificate.t) (cmd : Cmd.t St).

Lemma bind_ret_r (m : M St unit) w : bind m (λ _, ret ()) w = m w.
Proof.
  unfold bind, ret. destruct (m w) as [[[]|e] w' t]; cbn; [|done].
  by rewrite app_nil_r.
Qed.

Lemma create_private_key_run c cmd w :
  Certificate._create_private_key c cmd w = Cmd.run cmd (genrsa_args c) w.
Proof. unfold Certificate._create_private_key, AsyncPath.resolve. by rewrite bind_ret_l. Qed.

Lemma create_signing_request_run c cmd w :
  Certificate._create_signing_request c cmd w = Cmd.run cmd (req_args c) w.
Proof.
  unfold Certificate._create_signing_request, AsyncPath.resolve.
  by rewrite !bind_ret_l.
Qed.

Lemma create_as_stages c cmd w :
  Certificate.create c cmd w = run_stages (step_run c cmd <$> steps) w.
Proof.
  unfold Certificate.create, steps. cbn [fmap list_fmap run_stages step_run].
  apply bind_ext. intros _. apply bind_ext. intros _.
  rewrite bind_assoc. apply bind_ext. intros rs. rewrite bind_ret_l.
  apply bind_ext. intros _. unfold AsyncPath.resolve. rewrite !bind_ret_l.
  rewrite bind_assoc. apply bind_ext. intros srl_exists. rewrite !bind_ret_l.
  apply bind_ext. intros _. symmetry. apply bind_ret_r.
Qed.

Lemma run_stages_app (ms1 ms2 : list (M St unit)) w :
  run_stages (ms1 ++ ms2) w = bind (run_stages ms1) (λ _, run_stages ms2) w.
Proof.
  revert w. induction ms1 as [|m ms1 IH]; intros w; cbn [app run_stages].
  - by rewrite bind_ret_l.
  - rewrite bind_assoc. apply bind_ext. intros _. apply IH.
Qed.

Lemma run_stages_ok_cons (m : M St unit) ms w :
  result (run_stages (m :: ms) w) = Ok () →
  result (m w) = Ok ()
  ∧ result (run_stages ms (world (m w))) = Ok ()
  ∧ world (run_stages (m :: ms) w) = world (run_stages ms (world (m w))).
Proof.
  cbn [run_stages]. intros Hok.
  destruct (bind_cases m (λ _, run_stages ms) w)
    as [([] & Hm & Hr & Hw & _)|(e & _ & Hr & _)]; [|congruence].
  rewrite Hr in Hok. done.
Qed.

End StageFacts.

Section OperationFacts.
Context {St : Type}.
Implicit Types (w : World St) (c : Certificate.t) (cmd : Cmd.t St).

Lemma run_trace cmd args w :
  trace (Cmd.run cmd args w) = [Ev (OpRun args) (answer_of (result (Cmd.run cmd args w)))].
Proof. unfold Cmd.run. by destruct (Cmd.exec cmd args _ _) as [[r s'] f']. Qed.

Lemma run_result cmd args w :
  result (Cmd.run cmd args w) = (Cmd.exec cmd args (cmd_state w) (fs w)).1.1.
Proof. unfold Cmd.run. by destruct (Cmd.exec cmd args _ _) as [[r s'] f']. Qed.

Lemma run_fs cmd args w :
  fs (world (Cmd.run cmd args w)) = (Cmd.exec cmd args (cmd_state w) (fs w)).2.
Proof. unfold Cmd.run. by destruct (Cmd.exec cmd args _ _) as [[r s'] f']. Qed.

Lemma mkdir_trace p w :
  trace (AsyncPath.mkdir p w)
  = [Ev (OpMkdir p) (answer_of (result (AsyncPath.mkdir p w)))].
Proof. unfold AsyncPath.mkdir. by destruct (AsyncPath.ensure_dirs _ _ _ _). Qed.

Lemma write_text_trace p text w :
  trace (AsyncPath.write_text p text w)
  = [Ev (OpWriteText p text) (answer_of (result (AsyncPath.write_text p text w)))].
Proof.
  unfold AsyncPath.write_text. destruct (blocked (fs w) p); [done|].
  by destruct (fs w !! p) as [[]|]; [| |destruct (parent p ≫= _) as [[]|]].
Qed.

Lemma chmod_trace p mode w :
  trace (AsyncPath.chmod p mode w)
  = [Ev (OpChmod p mode) (answer_of (result (AsyncPath.chmod p mode w)))].
Proof.
  unfold AsyncPath.chmod. destruct (blocked (fs w) p); [done|].
  by destruct (fs w !! p) as [[]|].
Qed.

End OperationFacts.

(** ** Traces that follow a plan *)

Section PlanFacts.
Context {St : Type}.
Implicit Types (w : World St) (plan : list Op) (t : list Event).

(** An operation of one event follows the plan of that operation. *)
Lemma single_event_follows (m : M St unit) (op : Op) w :
  trace (m w) = [Ev op (answer_of (result (m w)))] →
  follows [op] (result (m w)) (trace (m w)).
Proof.
  intros ->. destruct (result (m w)) as [[]|e]; cbn.
  - split; [done|]. by repeat constructor.
  - exists [], op. split; [done|]. split; [constructor|done].
Qed.

Lemma follows_bind (m k : M St unit) plan1 plan2 w :
  follows plan1 (result (m w)) (trace (m w)) →
  follows plan2 (result (k (world (m w)))) (trace (k (world (m w)))) →
  follows (plan1 ++ plan2) (result (bind m (λ _, k) w)) (trace (bind m (λ _, k) w)).
Proof.
  intros H1 H2.
  destruct (bind_cases m (λ _, k) w)
    as [(a & Hr & -> & _ & ->)|(e & Hr & -> & _ & ->)]; rewrite Hr in H1.
  - destruct H1 as [Hops Hclean]. destruct (result (k _)) as [[]|e].
    + destruct H2 as [Hops2 Hclean2]. split; [|by apply Forall_app].
      by rewrite fmap_app, Hops, Hops2.
    + destruct H2 as (t0 & op & Ht & Hc & Hpre).
      exists (trace (m w) ++ t0), op. split; [by rewrite Ht, app_assoc|].
      split; [by apply Forall_app|].
      rewrite fmap_app, Hops. by apply prefix_app.
  - destruct H1 as (t0 & op & Ht & Hc & Hpre). exists t0, op.
    split; [done|]. split; [done|]. by apply prefix_app_r.
Qed.

(** Every operation performed is one of the plan. *)
Lemma follows_ops plan r t ev : follows plan r t → ev ∈ t → ev_op ev ∈ plan.
Proof.
  destruct r as [a|e]; cbn.
  - intros [<- _] Hin. by apply list_elem_of_fmap_2.
  - intros (t0 & op & _ & _ & [k ->]) Hin. apply elem_of_app. left.
    by apply list_elem_of_fmap_2.
Qed.

End PlanFacts.

Section GatherPair.
Context {St : Type}.
Implicit Types (w : World St).

Lemma run_in_order_pair i j (t u : M St unit) w :
  run_in_order [(i, t); (j, u)] w =
  let o1 := t (popped w) in
  let o2 := u (popped (world o1)) in
  match result o1 with
  | Raise e => mkOutcome (Raise e) (world o1) (trace o1)
  | Ok a =>
      mkOutcome (match result o2 with
                 | Ok b => Ok [(i, a); (j, b)]
                 | Raise e => Raise e
                 end) (world o2) (trace o1 ++ trace o2)
  end.
Proof.
  cbn zeta. rewrite run_in_order_cons. unfold bind at 1.
  destruct (result (t (popped w))) as [a|e]; [|done].
  rewrite bind_ret_map, run_in_order_cons. cbn [result world trace run_in_order].
  unfold bind, ret. cbn [result world trace].
  destruct (result (u _)) as [b|e]; cbn [result world trace]; by rewrite ?app_nil_r.
Qed.

(** Two joined tasks run one after the other, in an order the event loop
    chooses; when the first raises, the second is left pending. *)
Lemma gather_pair (t0 t1 : M St unit) w :
  ∃ first second : M St unit,
    ((first = t0 ∧ second = t1) ∨ (first = t1 ∧ second = t0))
    ∧ let o := gather [t0; t1] w in
      let o1 := first (popped w) in
      let o2 := second (popped (world o1)) in
      match result o1 with
      | Raise e => result o = Raise e ∧ world o = world o1 ∧ trace o = trace o1
      | Ok _ =>
          world o = world o2
          ∧ trace o = trace o1 ++ trace o2
          ∧ result o = match result o2 with
                       | Ok _ => Ok [(); ()]
                       | Raise e => Raise e
                       end
      end.
Proof.
  destruct (gather_run [t0; t1] w) as (order & Hperm & Hg).
  cbn in Hperm. symmetry in Hperm. apply Permutation_length_2_inv in Hperm.
  destruct Hperm as [->| ->]; [exists t0, t1|exists t1, t0].
  all: split; [tauto|]; cbn zeta; rewrite Hg; unfold bind.
  all: rewrite run_in_order_pair; cbn zeta.
  all: destruct (result (_ (popped w))) as [[]|e1]; cbn [result world trace]; [|done].
  all: destruct (result (_ (popped (world _)))) as [[]|e2]; cbn; try done.
  all: by rewrite app_nil_r.
Qed.

End GatherPair.

Section StepFacts.
Context {St : Type}.
Implicit Types (w : World St) (c : Certificate.t) (cmd : Cmd.t St).

Lemma generation_outcome c cmd w :
  ∃ first second : M St unit,
    ((first = Certificate._build_certificate_conf c
      ∧ second = Certificate._create_private_key c cmd)
     ∨ (first = Certificate._create_private_key c cmd
        ∧ second = Certificate._build_certificate_conf c))
    ∧ let o := step_run c cmd Generation w in
      let o1 := first (popped w) in
      let o2 := second (popped (world o1)) in
      match result o1 with
      | Raise e => result o = Raise e ∧ world o = world o1 ∧ trace o = trace o1
      | Ok _ =>
          world o = world o2
          ∧ trace o = trace o1 ++ trace o2
          ∧ result o = result o2
      end.
Proof.
  destruct (gather_pair (Certificate._build_certificate_conf c)
              (Certificate._create_private_key c cmd) w)
    as (first & second & Hord & Hg).
  exists first, second. split; [exact Hord|]. cbn zeta in *. cbn [step_run].
  rewrite bind_ret_map. cbn [result world trace].
  destruct (result (first (popped w))) as [[]|e1].
  - destruct Hg as (-> & -> & ->). split; [done|]. split; [done|].
    by destruct (result (second _)) as [[]|e2].
  - by destruct Hg as (-> & -> & ->).
Qed.

Lemma conf_trace c w :
  trace (Certificate._build_certificate_conf c w)
  = [Ev (OpWriteText (Certificate.conf_path c) (Certificate.conf_text c))
        (answer_of (result (Certificate._build_certificate_conf c w)))].
Proof. apply write_text_trace. Qed.

Lemma key_trace c cmd w :
  trace (Certificate._create_private_key c cmd w)
  = [Ev (OpRun (genrsa_args c))
        (answer_of (result (Certificate._create_private_key c cmd w)))].
Proof. rewrite create_private_key_run. apply run_trace. Qed.

Lemma request_trace c cmd w :
  trace (Certificate._create_signing_request c cmd w)
  = [Ev (OpRun (req_args c))
        (answer_of (result (Certificate._create_signing_request c cmd w)))].
Proof. rewrite create_signing_request_run. apply run_trace. Qed.

Lemma signing_trace c cmd w :
  let srl := CertificationAuthority.srl_path (Certificate._authority c) in
  let b := present (fs w) srl in
  trace (step_run c cmd Signing w)
  = [Ev (OpExists srl) (Found b);
     Ev (OpRun (x509_args c b)) (answer_of (result (step_run c cmd Signing w)))].
Proof.
  cbn zeta. cbn [step_run]. unfold bind. rewrite exists_run. cbn [result world trace].
  by rewrite run_trace.
Qed.

(** *** Each step follows its plan *)

Lemma unlink_done_ops (ips : list (nat * Path)) :
  ev_op <$> (unlink_done <$> ips) = OpUnlink <$> ips.*2.
Proof. induction ips as [|[i p] ips IH]; [done|]. rewrite !fmap_cons. by f_equal. Qed.

Lemma unlink_done_clean (ips : list (nat * Path)) : clean (unlink_done <$> ips).
Proof. apply Forall_fmap, Forall_forall. done. Qed.

Lemma cleanup_trace_ops (root : Path) (f : FS) :
  ev_op <$> cleanup_trace root f ∈ [ [OpExists root];
                                     [OpExists root; OpGlob root];
                                     [OpExists root; OpGlob root; OpRmdir root] ].
Proof.
  unfold cleanup_trace. destruct (f !! root); [case_bool_decide|]; cbn;
    rewrite !elem_of_cons; tauto.
Qed.

Lemma cleanup_trace_clean (root : Path) (f : FS) : clean (cleanup_trace root f).
Proof.
  unfold cleanup_trace. destruct (f !! root); [case_bool_decide|];
    by repeat constructor.
Qed.

Lemma reset_follows c w :
  ∃ plan, step_plan c Reset plan
    ∧ follows plan (result (Certificate.delete c w)) (trace (Certificate.delete c w)).
Proof.
  destruct (delete_outcome c w) as (_ & _ & done & rest & Hperm & Hdone & Hrest).
  destruct rest as [|ip rest].
  - destruct Hrest as (_ & -> & _ & ->). rewrite app_nil_r in Hperm.
    eexists. split.
    + eexists done.*2, _. split; [reflexivity|]. split; [done|].
      apply cleanup_trace_ops.
    + split.
      * by rewrite fmap_app, unlink_done_ops.
      * apply Forall_app. split; [apply unlink_done_clean|apply cleanup_trace_clean].
  - destruct Hrest as (e & He & -> & _ & ->).
    exists ((OpUnlink <$> (done ++ ip :: rest).*2)
            ++ [OpExists (Certificate._root_path c)]). split.
    + eexists _, _. split; [reflexivity|]. split; [done|]. by left.
    + exists (unlink_done <$> done), (OpUnlink ip.2).
      split; [done|]. split; [apply unlink_done_clean|].
      rewrite !fmap_app, unlink_done_ops, fmap_cons. cbn [fmap list_fmap ev_op].
      exists ((OpUnlink <$> rest.*2) ++ [OpExists (Certificate._root_path c)]).
      by rewrite <- !app_assoc.
Qed.

Lemma generation_follows c cmd w :
  ∃ plan, step_plan c Generation plan
    ∧ follows plan (result (step_run c cmd Generation w))
                   (trace (step_run c cmd Generation w)).
Proof.
  destruct (generation_outcome c cmd w) as (first & second & Hord & Hg).
  cbn zeta in Hg.
  assert (H1 : ∃ op1 op2,
            (∀ w', trace (first w') = [Ev op1 (answer_of (result (first w')))])
            ∧ (∀ w', trace (second w') = [Ev op2 (answer_of (result (second w')))])
            ∧ step_plan c Generation [op1; op2]).
  { destruct Hord as [[-> ->]|[-> ->]]; eexists _, _.
    - split; [intros; apply conf_trace|]. split; [intros; apply key_trace|].
      cbn. reflexivity.
    - split; [intros; apply key_trace|]. split; [intros; apply conf_trace|].
      apply Permutation_swap. }
  destruct H1 as (op1 & op2 & Ht1 & Ht2 & Hplan).
  exists [op1; op2]. split; [done|].
  destruct (result (first (popped w))) as [[]|e1] eqn:Hr1.
  - destruct Hg as (_ & -> & ->). rewrite Ht1, Ht2, Hr1.
    destruct (result (second _)) as [[]|e2]; cbn.
    + split; [done|]. by repeat constructor.
    + exists [Ev op1 Done], op2. split; [done|]. split; [by repeat constructor|done].
  - destruct Hg as (-> & _ & ->). rewrite Ht1, Hr1.
    exists [], op1. split; [done|]. split; [constructor|]. by exists [op2].
Qed.

Lemma signing_follows c cmd w :
  ∃ plan, step_plan c Signing plan
    ∧ follows plan (result (step_run c cmd Signing w))
                   (trace (step_run c cmd Signing w)).
Proof.
  eexists. split; [by eexists|]. rewrite signing_trace.
  destruct (result (step_run c cmd Signing w)) as [[]|e]; cbn.
  - split; [done|]. by repeat constructor.
  - eexists [_], _. split; [done|]. split; [by repeat constructor|done].
Qed.

Lemma step_follows c cmd s w :
  ∃ plan, step_plan c s plan
    ∧ follows plan (result (step_run c cmd s w)) (trace (step_run c cmd s w)).
Proof.
  destruct s.
  - apply reset_follows.
  - eexists. split; [reflexivity|]. apply single_event_follows, mkdir_trace.
  - apply generation_follows.
  - eexists. split; [reflexivity|].
    apply (single_event_follows (Certificate._create_signing_request c cmd)),
      request_trace.
  - apply signing_follows.
  - eexists. split; [reflexivity|]. cbn [step_run].
    apply (follows_bind _ _ [_] [_]); apply single_event_follows, chmod_trace.
Qed.

(** The steps run in order: the trace of a run follows the plans of the
    steps, one after the other. *)
Lemma run_stages_follows c cmd (ss : list Step) w :
  ∃ plans, Forall2 (step_plan c) ss plans
    ∧ follows (concat plans) (result (run_stages (step_run c cmd <$> ss) w))
                             (trace (run_stages (step_run c cmd <$> ss) w)).
Proof.
  revert w. induction ss as [|s ss IH]; intros w.
  - exists []. split; [constructor|]. split; [done|constructor].
  - destruct (step_follows c cmd s w) as (plan & Hplan & Hf).
    destruct (IH (world (step_run c cmd s w))) as (plans & Hplans & Hfs).
    exists (plan :: plans). split; [by constructor|].
    rewrite fmap_cons. cbn [run_stages concat]. by apply follows_bind.
Qed.

(** The command invocations a step plans. *)
Lemma step_plan_invocations c s plan args :
  step_plan c s plan → OpRun args ∈ plan →
  match s with
  | Generation => args = genrsa_args c
  | SigningRequest => args = req_args c
  | Signing => ∃ b, args = x509_args c b
  | _ => False
  end.
Proof.
  intros Hs Hops. destruct s; cbn [step_plan] in Hs.
  - destruct Hs as (us & tail & -> & Hus & Htail).
    rewrite elem_of_app in Hops. destruct Hops as [Hu|Hr].
    + apply list_elem_of_fmap in Hu as (p & Hp & _). done.
    + rewrite !elem_of_cons, elem_of_nil in Htail.
      destruct Htail as [->|[->|[->|[]]]];
        rewrite !elem_of_cons, elem_of_nil in Hr; intuition discriminate.
  - rewrite Hs, list_elem_of_singleton in Hops. done.
  - rewrite Hs, !elem_of_cons, elem_of_nil in Hops.
    destruct Hops as [?|[?|[]]]; [done|congruence].
  - rewrite Hs, list_elem_of_singleton in Hops. congruence.
  - destruct Hs as (b & ->).
    rewrite !elem_of_cons, elem_of_nil in Hops.
    destruct Hops as [?|[?|[]]]; [done|]. exists b. congruence.
  - rewrite Hs, !elem_of_cons, elem_of_nil in Hops.
    destruct Hops as [?|[?|[]]]; done.
Qed.

Lemma elem_of_concat {A} (ls : list (list A)) (x : A) :
  x ∈ concat ls ↔ ∃ l, x ∈ l ∧ l ∈ ls.
Proof.
  rewrite list_elem_of_In, in_concat. split.
  - intros (l & Hl & Hx). exists l. by rewrite !list_elem_of_In.
  - intros (l & Hx & Hl). exists l. by rewrite <- !list_elem_of_In.
Qed.

(** Every command invocation of the steps [ss] is one of theirs. *)
Lemma stages_invocations c cmd ss w ev args :
  ev ∈ trace (run_stages (step_run c cmd <$> ss) w) → ev_op ev = OpRun args →
  ∃ s, s ∈ ss ∧ match s with
                | Generation => args = genrsa_args c
                | SigningRequest => args = req_args c
                | Signing => ∃ b, args = x509_args c b
                | _ => False
                end.
Proof.
  intros Hin Hop.
  destruct (run_stages_follows c cmd ss w) as (plans & Hplans & Hf).
  pose proof (follows_ops _ _ _ _ Hf Hin) as Hops. rewrite Hop in Hops.
  apply elem_of_concat in Hops as (plan & Hops & Hplan).
  apply list_elem_of_lookup in Hplan as [i Hi].
  destruct (Forall2_lookup_r _ _ _ _ _ Hplans Hi) as (s & Hs & Hst).
  exists s. split; [by apply list_elem_of_lookup_2 in Hs|].
  by apply (step_plan_invocations c s plan args).
Qed.

(** A run of the steps [ss] that returned has performed every operation
    of their plans, with success. *)
Lemma stages_ok_plan c cmd ss w :
  result (run_stages (step_run c cmd <$> ss) w) = Ok () →
  ∃ plans, Forall2 (step_plan c) ss plans
    ∧ ev_op <$> trace (run_stages (step_run c cmd <$> ss) w) = concat plans
    ∧ clean (trace (run_stages (step_run c cmd <$> ss) w)).
Proof.
  intros Hok. destruct (run_stages_follows c cmd ss w) as (plans & Hplans & Hf).
  rewrite Hok in Hf. exists plans. by split.
Qed.

End StepFacts.

Section FrameFacts.
Context {St : Type}.
Implicit Types (w : World St) (c : Certificate.t) (cmd : Cmd.t St) (f : FS) (p q : Path).

Lemma string_app_inv_head (s a b : string) : s +:+ a = s +:+ b → a = b.
Proof. induction s as [|ch s IH]; cbn; [done|]. intros [= H]. by apply IH. Qed.

Lemma artifact_ext_inj (root : Path) (name e1 e2 : string) :
  root </> (name +:+ e1) = root </> (name +:+ e2) → e1 = e2.
Proof.
  unfold joinpath. intros H. apply app_inv_head in H. injection H as H.
  by apply string_app_inv_head in H.
Qed.

Lemma crt_ne_conf c : Certificate.crt_path c ≠ Certificate.conf_path c.
Proof. intros H. by apply artifact_ext_inj in H. Qed.

Lemma artifact_not_prefix c p :
  p ∈ artifacts c → p ∉ AsyncPath.prefixes (Certificate._root_path c).
Proof.
  intros Hp Hin. unfold AsyncPath.prefixes in Hin.
  apply list_elem_of_fmap in Hin as (n & -> & _).
  apply artifact_length in Hp. rewrite length_take in Hp. lia.
Qed.

Lemma ensure_dirs_lookup p mode qs f q :
  q ∉ qs → (AsyncPath.ensure_dirs p mode qs f).2 !! q = f !! q.
Proof.
  revert f. induction qs as [|q' qs IH]; intros f Hq; [done|].
  apply not_elem_of_cons in Hq as [Hne Hq]. cbn [AsyncPath.ensure_dirs].
  destruct (f !! q') as [[]|]; [done|by apply IH|].
  rewrite IH by done. by apply lookup_insert_ne.
Qed.

Lemma mkdir_lookup p w q :
  q ∉ AsyncPath.prefixes p → fs (world (AsyncPath.mkdir p w)) !! q = fs w !! q.
Proof.
  intros Hq. unfold AsyncPath.mkdir.
  pose proof (ensure_dirs_lookup p (N.ldiff 511 (umask w)) _ (fs w) q Hq) as H.
  by destruct (AsyncPath.ensure_dirs _ _ _ _).
Qed.

Lemma write_text_lookup p text w q :
  q ≠ p → fs (world (AsyncPath.write_text p text w)) !! q = fs w !! q.
Proof.
  intros Hq. unfold AsyncPath.write_text. destruct (blocked (fs w) p); [done|].
  destruct (fs w !! p) as [[]|]; [|done|destruct (parent p ≫= _) as [[]|]]; cbn;
    rewrite ?lookup_insert_ne; done.
Qed.

Lemma run_stages_preserves (J : FS → Prop) (ms : list (M St unit)) :
  Forall (preserves J) ms → preserves J (run_stages ms).
Proof.
  induction 1 as [|m ms Hm _ IH]; intros w HJ; [done|]. cbn [run_stages].
  destruct (bind_cases m (λ _, run_stages ms) w)
    as [(a & _ & _ & -> & _)|(e & _ & _ & -> & _)]; [|by apply Hm].
  by apply IH, Hm.
Qed.

(** The generation keeps what its two tasks keep. *)
Lemma generation_preserves c cmd (J : FS → Prop) :
  (∀ w, J (fs w) → J (fs (world (Certificate._build_certificate_conf c w)))) →
  (∀ w, J (fs w) → J (fs (world (Certificate._create_private_key c cmd w)))) →
  preserves J (step_run c cmd Generation).
Proof.
  intros Hconf Hkey w HJ.
  destruct (generation_outcome c cmd w) as (first & second & Hord & Hg).
  cbn zeta in Hg.
  assert (H1 : ∀ w', J (fs w') → J (fs (world (first w'))))
    by (destruct Hord as [[-> _]|[-> _]]; done).
  assert (H2 : ∀ w', J (fs w') → J (fs (world (second w'))))
    by (destruct Hord as [[_ ->]|[_ ->]]; done).
  destruct (result (first (popped w))).
  - destruct Hg as (-> & _). apply H2. cbn [popped fs]. by apply H1.
  - destruct Hg as (_ & -> & _). by apply H1.
Qed.

(** The steps between the reset and the signing keep the signed
    certificate absent, when the executor does on the two invocations
    they make. *)
Lemma crt_absent_preserved c cmd s :
  (∀ args st f, args = genrsa_args c ∨ args = req_args c →
                f !! Certificate.crt_path c = None →
                (Cmd.exec cmd args st f).2 !! Certificate.crt_path c = None) →
  s ∈ [EnsureDirectory; Generation; SigningRequest] →
  preserves (λ f, f !! Certificate.crt_path c = None) (step_run c cmd s).
Proof.
  intros Hframe Hs.
  assert (Hcrt : Certificate.crt_path c ∈ artifacts c).
  { unfold artifacts. rewrite !elem_of_cons. tauto. }
  rewrite !elem_of_cons, elem_of_nil in Hs. destruct Hs as [->|[->|[->|[]]]].
  - intros w HJ. cbn [step_run].
    rewrite mkdir_lookup; [done|by apply artifact_not_prefix].
  - apply generation_preserves.
    + intros w' H. unfold Certificate._build_certificate_conf.
      rewrite write_text_lookup; [done|apply crt_ne_conf].
    + intros w' H. rewrite create_private_key_run, run_fs. apply Hframe; auto.
  - intros w HJ. cbn [step_run].
    rewrite create_signing_request_run, run_fs. apply Hframe; auto.
Qed.

Lemma path_str_head p : ∃ s, path_str p = String "/" s.
Proof. destruct p as [|x p]; cbn; eauto. Qed.

End FrameFacts.

(** ** Further facts on the certificate operations *)

Section ExtraFacts.
Context {St : Type}.
Implicit Types (w : World St) (c : Certificate.t) (cmd : Cmd.t St) (p q : Path).

Lemma artifacts_NoDup c : NoDup (artifacts c).
Proof.
  unfold artifacts, Certificate.key_path, Certificate.csr_path,
    Certificate.crt_path, Certificate.conf_path.
  repeat (apply NoDup_cons; split); try apply NoDup_nil_2.
  all: rewrite ?elem_of_cons, elem_of_nil.
  all: intros H; repeat destruct H as [H|H]; try done.
  all: apply artifact_ext_inj in H; discriminate H.
Qed.

Lemma root_is_prefix (root : Path) : root ∈ AsyncPath.prefixes root.
Proof.
  unfold AsyncPath.prefixes. apply list_elem_of_fmap. exists (length root).
  split; [by rewrite firstn_all|]. apply elem_of_seq. lia.
Qed.

Lemma chmod_lookup_ne p mode w q :
  q ≠ p → fs (world (AsyncPath.chmod p mode w)) !! q = fs w !! q.
Proof.
  intros Hq. unfold AsyncPath.chmod. destruct (blocked (fs w) p); [done|].
  destruct (fs w !! p) as [[]|]; cbn; rewrite ?lookup_insert_ne; done.
Qed.

Lemma chmod_ok p mode w :
  result (AsyncPath.chmod p mode w) = Ok () →
  mode_of <$> fs (world (AsyncPath.chmod p mode w)) !! p = Some mode.
Proof.
  unfold AsyncPath.chmod. destruct (blocked (fs w) p); [done|].
  destruct (fs w !! p) as [[]|]; cbn; rewrite ?lookup_insert_eq; done.
Qed.

Lemma chmod_keeps p mode w q :
  is_Some (fs w !! q) → is_Some (fs (world (AsyncPath.chmod p mode w)) !! q).
Proof.
  intros Hq. destruct (decide (q = p)) as [->|Hne].
  - unfold AsyncPath.chmod. destruct (blocked (fs w) p); [done|].
    destruct (fs w !! p) as [[]|] eqn:Hp; cbn;
      rewrite ?lookup_insert_eq, ?Hp; eauto.
  - by rewrite chmod_lookup_ne.
Qed.

Lemma write_text_ok p text w :
  result (AsyncPath.write_text p text w) = Ok () →
  is_Some (fs (world (AsyncPath.write_text p text w)) !! p).
Proof.
  unfold AsyncPath.write_text. destruct (blocked (fs w) p); [done|].
  destruct (fs w !! p) as [[]|]; [| |destruct (parent p ≫= _) as [[]|]]; cbn;
    rewrite ?lookup_insert_eq; try done; eauto.
Qed.

Lemma signing_fs c cmd w :
  ∃ b, fs (world (step_run c cmd Signing w))
       = (Cmd.exec cmd (x509_args c b) (cmd_state w) (fs w)).2.
Proof.
  exists (present (fs w) (CertificationAuthority.srl_path (Certificate._authority c))).
  cbn [step_run]. unfold bind. rewrite exists_run. cbn [result world trace].
  by rewrite run_fs.
Qed.

Lemma create_ok_steps c cmd w :
  result (Certificate.create c cmd w) = Ok () →
  let w1 := world (step_run c cmd Reset w) in
  let w2 := world (step_run c cmd EnsureDirectory w1) in
  let w3 := world (step_run c cmd Generation w2) in
  let w4 := world (step_run c cmd SigningRequest w3) in
  let w5 := world (step_run c cmd Signing w4) in
  let w6 := world (step_run c cmd Permissions w5) in
  result (step_run c cmd Reset w) = Ok ()
  ∧ result (step_run c cmd EnsureDirectory w1) = Ok ()
  ∧ result (step_run c cmd Generation w2) = Ok ()
  ∧ result (step_run c cmd SigningRequest w3) = Ok ()
  ∧ result (step_run c cmd Signing w4) = Ok ()
  ∧ result (step_run c cmd Permissions w5) = Ok ()
  ∧ world (Certificate.create c cmd w) = w6.
Proof.
  rewrite create_as_stages. unfold steps. cbn [fmap list_fmap]. intros H.
  apply run_stages_ok_cons in H as (H1 & H & Hw1).
  apply run_stages_ok_cons in H as (H2 & H & Hw2).
  apply run_stages_ok_cons in H as (H3 & H & Hw3).
  apply run_stages_ok_cons in H as (H4 & H & Hw4).
  apply run_stages_ok_cons in H as (H5 & H & Hw5).
  apply run_stages_ok_cons in H as (H6 & H & Hw6).
  cbn zeta. rewrite Hw1, Hw2, Hw3, Hw4, Hw5, Hw6. done.
Qed.

Lemma permissions_ok c cmd w :
  result (step_run c cmd Permissions w) = Ok () →
  let f := fs (world (step_run c cmd Permissions w)) in
  mode_of <$> f !! Certificate.crt_path c = Some 420%N
  ∧ mode_of <$> f !! Certificate.key_path c = Some 420%N
  ∧ ∀ q, is_Some (fs w !! q) → is_Some (f !! q).
Proof.
  cbn [step_run]. intros Hok. cbn zeta.
  destruct (bind_cases (AsyncPath.chmod (Certificate.crt_path c) 420)
              (λ _, AsyncPath.chmod (Certificate.key_path c) 420) w)
    as [([] & Hcrt & Hr & Hw & _)|(e & _ & Hr & _)]; [|congruence].
  rewrite Hr in Hok. rewrite Hw. split; [|split].
  - rewrite chmod_lookup_ne; [by apply chmod_ok|].
    intros H. by apply artifact_ext_inj in H.
  - by apply chmod_ok.
  - intros q Hq. by apply chmod_keeps, chmod_keeps.
Qed.

Lemma generation_ok_conf c cmd w :
  keeps_paths cmd →
  result (step_run c cmd Generation w) = Ok () →
  is_Some (fs (world (step_run c cmd Generation w)) !! Certificate.conf_path c).
Proof.
  intros Hkeep Hok.
  destruct (generation_outcome c cmd w) as (first & second & Hord & Hg).
  cbn zeta in Hg.
  destruct (result (first (popped w))) as [[]|] eqn:H1.
  - destruct Hg as (-> & _ & Hr). rewrite Hr in Hok.
    destruct Hord as [[-> ->]|[-> ->]].
    + rewrite create_private_key_run, run_fs. apply Hkeep.
      unfold popped at 1. cbn [fs]. by apply write_text_ok.
    + by apply write_text_ok.
  - destruct Hg as (Hr & _). congruence.
Qed.

(** Every step of [create] leaves alone what the executor leaves alone,
    outside the artifacts and the prefixes of the root. *)
Lemma step_preserves_other c cmd q (n : option Node) s :
  leaves_alone cmd q → q ∉ artifacts c →
  q ∉ AsyncPath.prefixes (Certificate._root_path c) →
  preserves (λ f, f !! q = n) (step_run c cmd s).
Proof.
  intros Hcmd Hq Hpre.
  assert (Hne : ∀ p, p ∈ artifacts c → q ≠ p) by (intros p Hp ->; done).
  assert (Hkey : q ≠ Certificate.key_path c)
    by (apply Hne; unfold artifacts; rewrite !elem_of_cons; tauto).
  assert (Hcrt : q ≠ Certificate.crt_path c)
    by (apply Hne; unfold artifacts; rewrite !elem_of_cons; tauto).
  assert (Hconf : q ≠ Certificate.conf_path c)
    by (apply Hne; unfold artifacts; rewrite !elem_of_cons; tauto).
  destruct s.
  - intros w HJ. cbn [step_run]. rewrite delete_lookup_other; [done|done|].
    intros ->. apply Hpre, root_is_prefix.
  - intros w HJ. cbn [step_run]. by rewrite mkdir_lookup.
  - apply generation_preserves.
    + intros w HJ. unfold Certificate._build_certificate_conf.
      by rewrite write_text_lookup.
    + intros w HJ. by rewrite create_private_key_run, run_fs, Hcmd.
  - intros w HJ. cbn [step_run]. by rewrite create_signing_request_run, run_fs, Hcmd.
  - intros w HJ. destruct (signing_fs c cmd w) as [b ->]. by rewrite Hcmd.
  - intros w HJ. cbn [step_run].
    destruct (bind_cases (AsyncPath.chmod (Certificate.crt_path c) 420)
                (λ _, AsyncPath.chmod (Certificate.key_path c) 420) w)
      as [([] & _ & _ & -> & _)|(e & _ & _ & -> & _)];
      rewrite !chmod_lookup_ne; done.
Qed.

End ExtraFacts.

(** ** The existence check and the deletion workflow *)

(** C1: [exists] returns true exactly when the key, the signing request,
    the signed certificate and the configuration file are all present on
    disk, and false as soon as one of the four is absent; it changes
    nothing on disk. *)
Theorem exists_iff_all_four_present {St} (c : Certificate.t) (w : World St) :
  ∃ b, result (Certificate.exists_ c w) = Ok b
       ∧ (b = true ↔ is_Some (fs w !! Certificate.key_path c)
                     ∧ is_Some (fs w !! Certificate.csr_path c)
                     ∧ is_Some (fs w !! Certificate.crt_path c)
                     ∧ is_Some (fs w !! Certificate.conf_path c))
       ∧ (b = false ↔ ∃ p, p ∈ artifacts c ∧ fs w !! p = None)
       ∧ fs (world (Certificate.exists_ c w)) = fs w.
Proof.
  destruct (exists_outcome c w) as (Hr & Hfs & _ & _).
  eexists. split; [exact Hr|]. split; [|split; [|exact Hfs]].
  - rewrite !andb_true_iff. unfold present. rewrite !bool_decide_eq_true. tauto.
  - rewrite !andb_false_iff. unfold present, artifacts.
    rewrite !bool_decide_eq_false, <- !eq_None_not_Some. split.
    + intros [[[H|H]|H]|H]; eexists; (split; [|exact H]);
        rewrite !elem_of_cons; tauto.
    + intros (p & Hp & H). rewrite !elem_of_cons, elem_of_nil in Hp.
      destruct Hp as [->|[->|[->|[->|[]]]]]; tauto.
Qed.

(** C4: when each artifact path is a file or absent and lies below
    directories only (none is a directory, none has a regular file among
    its ancestors), [delete] succeeds, the four artifact files are gone,
    every other path below or beside the root is untouched, and the root
    directory is gone exactly when it was absent already or held nothing
    but artifacts; when another entry remains in it, the directory and
    that entry are left as they were. *)
Theorem delete_removes_artifacts_then_empty_root {St} (c : Certificate.t) (w : World St) :
  Forall (λ p, blocked (fs w) p = false ∧ is_dir (fs w) p = false) (artifacts c) →
  let o := Certificate.delete c w in
  let root := Certificate._root_path c in
  result o = Ok ()
  ∧ (∀ p, p ∈ artifacts c → fs (world o) !! p = None)
  ∧ (∀ q, q ∉ artifacts c → q ≠ root → fs (world o) !! q = fs w !! q)
  ∧ (fs (world o) !! root = None ↔
       fs w !! root = None
       ∨ ∀ q, parent q = Some root → is_Some (fs w !! q) → q ∈ artifacts c)
  ∧ (∀ q, parent q = Some root → q ∉ artifacts c → is_Some (fs w !! q) →
       fs (world o) !! root = fs w !! root ∧ fs (world o) !! q = fs w !! q).
Proof.
  intros Hnd. cbn zeta.
  destruct (delete_ok c w Hnd) as (Hr & Hfs & _). cbn zeta in *.
  destruct (unlinkable_root c _ Hnd) as [Hb Hf].
  set (root := Certificate._root_path c) in *.
  set (fs1 := unlink_all (artifacts c) (fs w)) in *.
  assert (Hent := entries_after_unlinks c (fs w) Hnd). fold root fs1 in Hent.
  assert (Hlk : ∀ q, fs (world (Certificate.delete c w)) !! q =
                     if is_dir fs1 root && bool_decide (entries fs1 root = [])
                        && bool_decide (q = root)
                     then None
                     else if bool_decide (q ∈ artifacts c) then None else fs w !! q).
  { intros q. rewrite Hfs, cleanup_fs_lookup.
    destruct (_ && _ && _); [done|]. unfold fs1.
    by rewrite unlink_all_artifacts_lookup. }
  assert (Hdir : is_dir fs1 root = bool_decide (is_Some (fs w !! root))).
  { unfold fs1, root. rewrite is_dir_root_unlink_all. by apply is_dir_root_present. }
  split; [exact Hr|split; [|split; [|split]]].
  - intros p Hp. rewrite Hlk, (bool_decide_true (p ∈ artifacts c)) by done.
    by destruct (_ && _ && _).
  - intros q Hq Hne. rewrite Hlk, (bool_decide_false (q = root)) by done.
    rewrite andb_false_r. by rewrite bool_decide_false.
  - rewrite Hlk, (bool_decide_true (root = root)), andb_true_r by done.
    rewrite (bool_decide_false (root ∈ artifacts c)) by apply root_not_artifact.
    rewrite Hdir. destruct (fs w !! root) as [n|] eqn:Hn.
    + rewrite (bool_decide_true (is_Some (Some n))) by eauto. rewrite andb_true_l.
      destruct (decide (entries fs1 root = [])) as [He|He].
      * rewrite bool_decide_true by done.
        pose proof (proj1 Hent He). split; [intros _; by right|done].
      * rewrite bool_decide_false by done.
        split; [done|]. intros [|H]; [done|]. destruct He. by apply (proj2 Hent).
    + rewrite (bool_decide_false (is_Some None)) by (by intros [? ?]).
      rewrite andb_false_l. split; eauto.
  - intros q Hp Hq Hs.
    assert (He : entries fs1 root ≠ []).
    { intros H. exact (Hq (proj1 Hent H q Hp Hs)). }
    rewrite !Hlk, (bool_decide_false (entries fs1 root = [])) by done.
    rewrite andb_false_r, !andb_false_l.
    rewrite (bool_decide_false (root ∈ artifacts c)) by apply root_not_artifact.
    by rewrite (bool_decide_false (q ∈ artifacts c)).
Qed.

Lemma delete_removes_artifacts_then_empty_root_witness :
  let o := Certificate.delete example_cert (world_of fs_with_fifth [2; 0; 1]) in
  result o = Ok ()
  ∧ fs (world o) !! ["certs"; "site.crt"] = None
  ∧ fs (world o) !! ["certs"] = Some (Dir 493)
  ∧ fs (world o) !! ["certs"; "notes.txt"] = Some (File "keep" 420).
Proof.
  destruct (delete_removes_artifacts_then_empty_root example_cert
              (world_of fs_with_fifth [2; 0; 1]))
    as (Hr & Habs & Hframe & _ & Hkeep).
  - repeat constructor.
  - cbn zeta. split; [exact Hr|]. split.
    + apply Habs. unfold artifacts. rewrite !elem_of_cons. tauto.
    + destruct (Hkeep ["certs"; "notes.txt"]) as [H1 H2].
      * reflexivity.
      * unfold artifacts. rewrite !elem_of_cons, elem_of_nil.
        intros [H|[H|[H|[H|[]]]]]; discriminate H.
      * vm_compute. eauto.
      * split; [exact H1|exact H2].
Defined.

(** C9, as the specification states it, fails: on a certificate none of
    whose artifacts exists but whose storage root is an empty directory,
    [delete] succeeds and removes that directory. *)
Lemma delete_never_created_changes_fs :
  Forall (λ p, fs_empty_root !! p = None) (artifacts example_cert)
  ∧ ¬ (result (Certificate.delete example_cert (world_of fs_empty_root [])) = Ok ()
       ∧ fs (world (Certificate.delete example_cert (world_of fs_empty_root [])))
         = fs_empty_root).
Proof.
  split; [repeat constructor|].
  intros [_ Hfs]. apply (f_equal (λ m : FS, m !! ["certs"])) in Hfs.
  vm_compute in Hfs. discriminate Hfs.
Qed.

(** C9, amended: on a certificate none of whose artifacts exists and whose
    artifact paths have no regular file among their ancestors, [delete]
    succeeds; it leaves the file system unchanged, except that a root
    directory that exists and is empty is removed. *)
Theorem delete_never_created {St} (c : Certificate.t) (w : World St) :
  Forall (λ p, fs w !! p = None) (artifacts c) →
  Forall (λ p, blocked (fs w) p = false) (artifacts c) →
  let o := Certificate.delete c w in
  let root := Certificate._root_path c in
  result o = Ok ()
  ∧ fs (world o) = (if is_dir (fs w) root && bool_decide (entries (fs w) root = [])
                    then delete root (fs w) else fs w)
  ∧ cmd_state (world o) = cmd_state w.
Proof.
  intros Habs Hres. cbn zeta.
  assert (Hnd : Forall (unlinkable (fs w)) (artifacts c)).
  { apply Forall_forall. intros p Hp. rewrite Forall_forall in Habs, Hres.
    split; [by apply Hres|]. unfold is_dir. by rewrite (Habs p Hp), andb_false_r. }
  destruct (delete_ok c w Hnd) as (Hr & Hfs & Hc). cbn zeta in *.
  rewrite (unlink_all_absent c (fs w) Habs) in Hfs. done.
Qed.

Lemma delete_never_created_witness :
  let o := Certificate.delete example_cert (world_of (<[ [] := Dir 493 ]> ∅) [3; 1]) in
  result o = Ok () ∧ fs (world o) = <[ [] := Dir 493 ]> ∅.
Proof.
  destruct (delete_never_created example_cert (world_of (<[ [] := Dir 493 ]> ∅) [3; 1]))
    as (Hr & Hfs & _).
  - repeat constructor.
  - repeat constructor.
  - cbn zeta. split; [exact Hr|]. rewrite Hfs. reflexivity.
Defined.

(** C10: whenever the storage root is a directory that holds no entry once
    the four artifacts are unlinked, [delete] succeeds and removes it, also
    when none of the artifacts was ever created. *)
Theorem delete_removes_empty_root {St} (c : Certificate.t) (w : World St) :
  is_dir (fs w) (Certificate._root_path c) = true →
  entries (unlink_all (artifacts c) (fs w)) (Certificate._root_path c) = [] →
  let o := Certificate.delete c w in
  result o = Ok ()
  ∧ fs (world o) !! Certificate._root_path c = None
  ∧ fs (world o) = delete (Certificate._root_path c) (unlink_all (artifacts c) (fs w)).
Proof.
  intros Hdir Hent. cbn zeta.
  assert (Hroot : blocked (fs w) (Certificate._root_path c) = false
                  ∧ is_file (fs w) (Certificate._root_path c) = false).
  { unfold is_dir, is_file in *. apply andb_true_iff in Hdir as [Hb Hd].
    apply negb_true_iff in Hb.
    by destruct (fs w !! Certificate._root_path c) as [[]|]. }
  assert (Hnd : Forall (unlinkable (fs w)) (artifacts c)).
  { apply Forall_forall. intros p Hp. split.
    - rewrite (artifact_blocked c) by done. by destruct Hroot as [-> ->].
    - pose proof (proj1 (entries_nil _ _) Hent p (artifact_parent c p Hp)) as Hnone.
      rewrite unlink_all_lookup, bool_decide_true in Hnone by done.
      unfold is_dir. destruct (fs w !! p) as [[]|]; try done; by rewrite andb_false_r. }
  destruct (delete_ok c w Hnd) as (Hr & Hfs & _). cbn zeta in *.
  assert (Hfs' : fs (world (Certificate.delete c w))
                 = delete (Certificate._root_path c) (unlink_all (artifacts c) (fs w))).
  { rewrite Hfs. unfold cleanup_fs. by rewrite is_dir_root_unlink_all, Hdir, Hent. }
  split; [exact Hr|]. split; [|exact Hfs'].
  rewrite Hfs'. apply lookup_delete_eq.
Qed.

Lemma delete_removes_empty_root_witness :
  let o := Certificate.delete example_cert (world_of fs_empty_root [1]) in
  Forall (λ p, fs_empty_root !! p = None) (artifacts example_cert)
  ∧ result o = Ok ()
  ∧ fs (world o) !! ["certs"] = None.
Proof.
  destruct (delete_removes_empty_root example_cert (world_of fs_empty_root [1]))
    as (Hr & Hroot & _).
  - reflexivity.
  - vm_compute. reflexivity.
  - cbn zeta. split; [repeat constructor|]. split; [exact Hr|exact Hroot].
Defined.

(** ** The creation workflow *)

Section ReachFacts.
Context {St : Type}.
Implicit Types (w : World St) (c : Certificate.t) (cmd : Cmd.t St).

(** Once the first four steps have returned, [create] goes on with the
    existence check of the serial file and the signing command. *)
Lemma signing_reached c cmd w :
  result (before_signing c cmd w) = Ok () →
  let srl := CertificationAuthority.srl_path (Certificate._authority c) in
  let b := present (fs (world (before_signing c cmd w))) srl in
  ∃ a rest,
    trace (Certificate.create c cmd w)
    = trace (before_signing c cmd w)
      ++ Ev (OpExists srl) (Found b) :: Ev (OpRun (x509_args c b)) a :: rest.
Proof.
  intros Hpre. cbn zeta.
  assert (Hsplit : Certificate.create c cmd w =
            bind (before_signing c cmd)
                 (λ _, run_stages (step_run c cmd <$> [Signing; Permissions])) w).
  { rewrite create_as_stages. unfold before_signing. by rewrite <- run_stages_app. }
  rewrite Hsplit.
  destruct (bind_ok _ (λ _, run_stages (step_run c cmd <$> [Signing; Permissions]))
              _ _ Hpre) as (_ & _ & ->).
  cbn [fmap list_fmap run_stages].
  destruct (bind_cases (step_run c cmd Signing)
              (λ _, bind (step_run c cmd Permissions) (λ _, ret ()))
              (world (before_signing c cmd w)))
    as [(u & _ & _ & _ & ->)|(e & _ & _ & _ & ->)];
    rewrite signing_trace; cbn; eauto.
Qed.

(** A [create] that returned went through its first four steps. *)
Lemma create_ok_before_signing c cmd w :
  result (Certificate.create c cmd w) = Ok () →
  result (before_signing c cmd w) = Ok ().
Proof.
  rewrite create_as_stages. unfold before_signing.
  change steps with ([Reset; EnsureDirectory; Generation; SigningRequest]
                     ++ [Signing; Permissions]).
  rewrite fmap_app, run_stages_app. intros Hok.
  match goal with |- result (?m w) = _ =>
    destruct (bind_cases m (λ _, run_stages (step_run c cmd <$> [Signing; Permissions])) w)
      as [([] & Hm & _)|(e & _ & Hr & _)]; [done|congruence] end.
Qed.

(** The operations of a plan were performed, when the run returned. *)
Lemma planned_event (plan : list Op) (t : list Event) (op : Op) :
  ev_op <$> t = plan → clean t → op ∈ plan →
  ∃ ev, ev ∈ t ∧ ev_op ev = op ∧ ev_failed ev = false.
Proof.
  intros <- Hclean (ev & -> & Hin)%list_elem_of_fmap. exists ev.
  split; [done|]. split; [done|]. unfold clean in Hclean.
  rewrite Forall_forall in Hclean. by apply Hclean.
Qed.

End ReachFacts.

(** C2: every run of [create] performs the operations of its six steps in
    the order reset, ensure directory, generation, signing request,
    signing, permissions. The reset comes first: the four unlinks, in the
    order the event loop chooses, then the existence check of the root,
    the listing of its entries and its removal as far as they apply. The
    generation writes the configuration file and invokes the key
    generation, in either order, both before the signing request. A run
    that returns has performed every operation of this sequence, each with
    success. A run that raises has performed an initial part of it: the
    last operation performed is the one that failed, with the exception
    raised, and nothing after it was begun. *)
Theorem create_steps_in_order {St} (c : Certificate.t) (cmd : Cmd.t St) (w : World St) :
  let o := Certificate.create c cmd w in
  let root := Certificate._root_path c in
  let srl := CertificationAuthority.srl_path (Certificate._authority c) in
  ∃ (us : list Path) (tail generation : list Op) (srl_exists : bool),
    us ≡ₚ [ Certificate.key_path c; Certificate.csr_path c;
            Certificate.crt_path c; Certificate.conf_path c ]
    ∧ tail ∈ [ [OpExists root];
               [OpExists root; OpGlob root];
               [OpExists root; OpGlob root; OpRmdir root] ]
    ∧ generation ≡ₚ [ OpWriteText (Certificate.conf_path c) (Certificate.conf_text c);
                      OpRun (genrsa_args c) ]
    ∧ let plan :=
        (OpUnlink <$> us) ++ tail ++ [OpMkdir root] ++ generation
        ++ [ OpRun (req_args c);
             OpExists srl; OpRun (x509_args c srl_exists);
             OpChmod (Certificate.crt_path c) 420;
             OpChmod (Certificate.key_path c) 420 ] in
      match result o with
      | Ok _ =>
          ev_op <$> trace o = plan
          ∧ Forall (λ ev, ev_failed ev = false) (trace o)
      | Raise e =>
          ∃ t op, trace o = t ++ [Ev op (Failed e)]
                  ∧ Forall (λ ev, ev_failed ev = false) t
                  ∧ (ev_op <$> trace o) `prefix_of` plan
      end.
Proof.
  cbn zeta. rewrite create_as_stages.
  destruct (run_stages_follows c cmd steps w) as (plans & Hplans & Hf).
  unfold steps in Hplans.
  repeat match goal with
         | H : Forall2 _ (_ :: _) _ |- _ =>
             apply Forall2_cons_inv_l in H as (? & ? & ? & H & ->)
         | H : Forall2 _ [] _ |- _ => apply Forall2_nil_inv_l in H as ->
         end.
  repeat match goal with H : step_plan _ _ _ |- _ => cbn [step_plan] in H end.
  repeat match goal with
         | H : ∃ _, _ |- _ => destruct H as [? H]
         | H : _ ∧ _ |- _ => destruct H as [? H]
         end.
  subst. cbn [concat] in Hf. rewrite app_nil_r, <- !app_assoc in Hf.
  eexists _, _, _, _. split; [eassumption|]. split; [eassumption|].
  split; [eassumption|]. exact Hf.
Qed.

(** C3: when the executor fails with [e] on the signing request, [create]
    raises: if one of the first three steps raised, that exception, and
    otherwise [e] itself, right after the failed request. The signing
    command is never invoked (the only invocations are the key generation
    and the signing request), and no signed certificate is on disk after a
    failed request, as long as the executor did not write one itself during
    the two invocations made, whatever the key generation wrote. *)
Theorem csr_failure_aborts_create {St} (c : Certificate.t) (cmd : Cmd.t St)
    (w : World St) (e : Error) :
  (∀ st f, (Cmd.exec cmd (req_args c) st f).1.1 = Raise e) →
  let o := Certificate.create c cmd w in
  let o3 := before_request c cmd w in
  (∃ e', result o = Raise e')
  ∧ (∀ ev args, ev ∈ trace o → ev_op ev = OpRun args →
                args = genrsa_args c ∨ args = req_args c)
  ∧ match result o3 with
    | Raise e' => result o = Raise e' ∧ trace o = trace o3
    | Ok _ =>
        result o = Raise e
        ∧ trace o = trace o3 ++ [Ev (OpRun (req_args c)) (Failed e)]
        ∧ ((∀ args st f, args = genrsa_args c ∨ args = req_args c →
                         f !! Certificate.crt_path c = None →
                         (Cmd.exec cmd args st f).2 !! Certificate.crt_path c = None) →
           fs (world o) !! Certificate.crt_path c = None)
    end.
Proof.
  intros Hfail. cbn zeta.
  assert (Hsplit : ∀ w0, Certificate.create c cmd w0 =
            bind (before_request c cmd)
                 (λ _, run_stages (step_run c cmd <$> [SigningRequest; Signing; Permissions])) w0).
  { intros w0. rewrite create_as_stages. unfold before_request.
    by rewrite <- run_stages_app. }
  assert (Hreq : ∀ w0, result (step_run c cmd SigningRequest w0) = Raise e).
  { intros w0. cbn [step_run]. by rewrite create_signing_request_run, run_result. }
  assert (Hraise : ∀ w0,
            let k := run_stages (step_run c cmd <$> [SigningRequest; Signing; Permissions]) in
            result (k w0) = Raise e
            ∧ world (k w0) = world (step_run c cmd SigningRequest w0)
            ∧ trace (k w0) = [Ev (OpRun (req_args c)) (Failed e)]).
  { intros w0. cbn zeta. cbn [fmap list_fmap run_stages].
    destruct (bind_raise (step_run c cmd SigningRequest)
                (λ _, bind (step_run c cmd Signing)
                        (λ _, bind (step_run c cmd Permissions) (λ _, ret ())))
                w0 e (Hreq w0)) as (-> & -> & ->).
    split; [done|]. split; [done|].
    change (step_run c cmd SigningRequest w0)
      with (Certificate._create_signing_request c cmd w0).
    rewrite request_trace.
    change (Certificate._create_signing_request c cmd w0)
      with (step_run c cmd SigningRequest w0). by rewrite Hreq. }
  assert (Hinv : ∀ ev args, ev ∈ trace (before_request c cmd w) →
            ev_op ev = OpRun args → args = genrsa_args c).
  { intros ev args Hin Hop.
    destruct (stages_invocations c cmd _ w ev args Hin Hop) as (s & Hs & Hm).
    rewrite !elem_of_cons, elem_of_nil in Hs.
    by destruct Hs as [->|[->|[->|[]]]]. }
  rewrite Hsplit.
  destruct (result (before_request c cmd w)) as [[]|e3] eqn:H3.
  - destruct (bind_ok _ (λ _, run_stages
                (step_run c cmd <$> [SigningRequest; Signing; Permissions])) _ _ H3)
      as (-> & -> & ->).
    destruct (Hraise (world (before_request c cmd w))) as (-> & -> & ->).
    split; [eauto|]. split; [|split; [done|split; [done|]]].
    + intros ev args [Hin|Hin]%elem_of_app Hop; [left; eauto|right].
      apply list_elem_of_singleton in Hin as ->. cbn in Hop. congruence.
    + intros Hframe.
      apply (crt_absent_preserved c cmd SigningRequest Hframe);
        [rewrite !elem_of_cons; tauto|].
      unfold before_request in *. cbn [fmap list_fmap run_stages] in *.
      destruct (bind_cases (step_run c cmd Reset)
                  (λ _, bind (step_run c cmd EnsureDirectory)
                          (λ _, bind (step_run c cmd Generation) (λ _, ret ()))) w)
        as [([] & Hd & Hr & Hw & _)|(e0 & _ & Hr & _)]; [|congruence].
      rewrite Hw.
      assert (Hkeep : Forall (preserves (λ f, f !! Certificate.crt_path c = None))
                        (step_run c cmd <$> [EnsureDirectory; Generation])).
      { repeat constructor;
          apply (crt_absent_preserved c cmd _ Hframe); rewrite !elem_of_cons; tauto. }
      apply (run_stages_preserves _ _ Hkeep (world (step_run c cmd Reset w))).
      apply delete_ok_absent; [exact Hd|]. unfold artifacts.
      rewrite !elem_of_cons. tauto.
  - destruct (bind_raise _ (λ _, run_stages
                (step_run c cmd <$> [SigningRequest; Signing; Permissions])) _ _ H3)
      as (-> & _ & ->).
    split; [eauto|]. split; [|done].
    intros ev args Hin Hop. left. eauto.
Qed.

Lemma csr_failure_aborts_create_witness :
  let o := Certificate.create example_cert (cmd_csr_fails example_cert)
             (world_of fs_empty_root [1; 1]) in
  result o = Raise (CmdError "req: unable to load key")
  ∧ fs (world o) !! ["certs"; "site.key"] = Some (File "pem" 384)
  ∧ fs (world o) !! ["certs"; "site.crt"] = None.
Proof.
  destruct (csr_failure_aborts_create example_cert (cmd_csr_fails example_cert)
              (world_of fs_empty_root [1; 1]) (CmdError "req: unable to load key"))
    as (_ & _ & Hm).
  - intros st f. reflexivity.
  - cbn zeta in *.
    assert (H3 : result (before_request example_cert (cmd_csr_fails example_cert)
                           (world_of fs_empty_root [1; 1])) = Ok ())
      by (vm_compute; reflexivity).
    rewrite H3 in Hm. destruct Hm as (Hr & _ & Hcrt).
    split; [exact Hr|]. split; [vm_compute; reflexivity|].
    apply Hcrt. intros args st f [->| ->] Hf; cbn.
    + rewrite lookup_insert_ne; [exact Hf|discriminate].
    + exact Hf.
Defined.

(** C5: once the first four steps of [create] have returned, the signing
    step checks the serial file of the authority and invokes the signing
    command with the serial-file-creation flag exactly when that file is
    absent; the argument list with the flag is the one without it with that
    single flag inserted. *)
Theorem serial_flag_iff_serial_absent {St} (c : Certificate.t) (cmd : Cmd.t St)
    (w : World St) :
  result (before_signing c cmd w) = Ok () →
  let srl := CertificationAuthority.srl_path (Certificate._authority c) in
  let srl_exists := present (fs (world (before_signing c cmd w))) srl in
  (∃ a rest,
      trace (Certificate.create c cmd w)
      = trace (before_signing c cmd w)
        ++ Ev (OpExists srl) (Found srl_exists)
           :: Ev (OpRun (x509_args c srl_exists)) a :: rest)
  ∧ (∃ pre post,
        x509_args c false = pre ++ ["-CAcreateserial"] ++ post
        ∧ x509_args c true = pre ++ post)
  ∧ "-CAcreateserial" ∈ x509_args c false
  ∧ "-CAcreateserial" ∉ x509_args c true.
Proof.
  intros Hpre. cbn zeta. split; [|split; [|split]].
  - by apply signing_reached.
  - exists [ "openssl"; "x509"; "-req"; "-sha256"; "-days"; "730";
             "-CA"; path_str (CertificationAuthority.pem_path (Certificate._authority c));
             "-CAkey"; path_str (CertificationAuthority.key_path (Certificate._authority c));
             "-CAserial"; path_str (CertificationAuthority.srl_path (Certificate._authority c)) ],
           [ "-in"; path_str (Certificate.csr_path c);
             "-out"; path_str (Certificate.crt_path c);
             "-extensions"; "v3_req";
             "-extfile"; path_str (Certificate.conf_path c) ].
    split; reflexivity.
  - unfold x509_args, x509_params. cbn. rewrite !elem_of_cons. tauto.
  - unfold x509_args, x509_params. cbn. rewrite !elem_of_cons, elem_of_nil.
    destruct (path_str_head (CertificationAuthority.pem_path (Certificate._authority c)))
      as [s1 H1].
    destruct (path_str_head (CertificationAuthority.key_path (Certificate._authority c)))
      as [s2 H2].
    destruct (path_str_head (CertificationAuthority.srl_path (Certificate._authority c)))
      as [s3 H3].
    destruct (path_str_head (Certificate.csr_path c)) as [s4 H4].
    destruct (path_str_head (Certificate.crt_path c)) as [s5 H5].
    destruct (path_str_head (Certificate.conf_path c)) as [s6 H6].
    rewrite H1, H2, H3, H4, H5, H6. intuition discriminate.
Qed.

Lemma serial_flag_iff_serial_absent_witness :
  let w := world_of fs_empty_root [0; 2] in
  let o := Certificate.create example_cert (cmd_ok example_cert) w in
  present (fs (world (before_signing example_cert (cmd_ok example_cert) w)))
          ["ca"; "ca.srl"] = false
  ∧ ∃ a rest,
      trace o = trace (before_signing example_cert (cmd_ok example_cert) w)
                ++ Ev (OpExists ["ca"; "ca.srl"]) (Found false)
                   :: Ev (OpRun (x509_args example_cert false)) a :: rest.
Proof.
  cbn zeta. split; [vm_compute; reflexivity|].
  destruct (serial_flag_iff_serial_absent example_cert (cmd_ok example_cert)
              (world_of fs_empty_root [0; 2])) as (Ht & _).
  - vm_compute. reflexivity.
  - exact Ht.
Defined.

(** C8: the commands a run of [create] invokes have argument lists built
    from the paths of the certificate and of its authority and from fixed
    words alone: the key generation asks for 2048 bits, the signing for the
    SHA-256 digest and 730 days, and nothing the caller passes changes
    them. Every invocation of a run is one of these; a run that reaches
    the signing has completed the key generation with these arguments and
    invokes the signing with them, and a run that returns has completed
    both. *)
Theorem create_fixed_parameters {St} (c : Certificate.t) (cmd : Cmd.t St) (w : World St) :
  let o := Certificate.create c cmd w in
  let a := Certificate._authority c in
  let genrsa :=
    [ "openssl"; "genrsa"; "-out"; path_str (Certificate.key_path c); "2048" ] in
  let req :=
    [ "openssl"; "req"; "-new";
      "-key"; path_str (Certificate.key_path c);
      "-out"; path_str (Certificate.csr_path c);
      "-subj"; Certificate.subject c;
      "-config"; path_str (Certificate.conf_path c) ] in
  let x509 (flag : list string) :=
    [ "openssl"; "x509"; "-req"; "-sha256"; "-days"; "730";
      "-CA"; path_str (CertificationAuthority.pem_path a);
      "-CAkey"; path_str (CertificationAuthority.key_path a);
      "-CAserial"; path_str (CertificationAuthority.srl_path a) ]
    ++ flag
    ++ [ "-in"; path_str (Certificate.csr_path c);
         "-out"; path_str (Certificate.crt_path c);
         "-extensions"; "v3_req";
         "-extfile"; path_str (Certificate.conf_path c) ] in
  (∀ ev args, ev ∈ trace o → ev_op ev = OpRun args →
              args = genrsa ∨ args = req
              ∨ args = x509 [] ∨ args = x509 ["-CAcreateserial"])
  ∧ (result (before_signing c cmd w) = Ok () →
       (∃ ev, ev ∈ trace o ∧ ev_op ev = OpRun genrsa ∧ ev_failed ev = false)
       ∧ (∃ ev flag, ev ∈ trace o ∧ ev_op ev = OpRun (x509 flag)))
  ∧ (result o = Ok () →
       result (before_signing c cmd w) = Ok ()
       ∧ (∃ ev flag, ev ∈ trace o ∧ ev_op ev = OpRun (x509 flag)
                     ∧ ev_failed ev = false)).
Proof.
  cbn zeta.
  assert (Hx : ∀ b, x509_args c b =
            [ "openssl"; "x509"; "-req"; "-sha256"; "-days"; "730";
              "-CA"; path_str (CertificationAuthority.pem_path (Certificate._authority c));
              "-CAkey"; path_str (CertificationAuthority.key_path (Certificate._authority c));
              "-CAserial"; path_str (CertificationAuthority.srl_path (Certificate._authority c)) ]
            ++ (if b then [] else ["-CAcreateserial"])
            ++ [ "-in"; path_str (Certificate.csr_path c);
                 "-out"; path_str (Certificate.crt_path c);
                 "-extensions"; "v3_req";
                 "-extfile"; path_str (Certificate.conf_path c) ])
    by (by intros []).
  split; [|split].
  - intros ev args Hin Hop. rewrite create_as_stages in Hin.
    destruct (stages_invocations c cmd steps w ev args Hin Hop) as (s & _ & Hs).
    destruct s; try done; [by left|right; by left|].
    destruct Hs as [b ->]. rewrite Hx. destruct b; auto.
  - intros Hpre. split.
    + destruct (stages_ok_plan c cmd _ w Hpre) as (plans & Hplans & Hops & Hclean).
      destruct (signing_reached c cmd w Hpre) as (a & rest & ->).
      assert (Hin : OpRun (genrsa_args c) ∈ concat plans).
      { repeat match goal with
               | H : Forall2 _ (_ :: _) _ |- _ =>
                   apply Forall2_cons_inv_l in H as (? & ? & ? & H & ->)
               | H : Forall2 _ [] _ |- _ => apply Forall2_nil_inv_l in H as ->
               end.
        match goal with
        | H : step_plan c Generation ?plan |- _ =>
            cbn [step_plan] in H;
            assert (OpRun (genrsa_args c) ∈ plan)
              by (rewrite H, !elem_of_cons; tauto)
        end.
        cbn [concat]. rewrite !elem_of_app. tauto. }
      destruct (planned_event _ _ _ Hops Hclean Hin) as (ev & Hev & Hop & Hok).
      exists ev. split; [|by split]. apply elem_of_app. by left.
    + destruct (signing_reached c cmd w Hpre) as (a & rest & ->).
      eexists (Ev (OpRun (x509_args c _)) a), _. split.
      * rewrite elem_of_app, !elem_of_cons. right. right. left. reflexivity.
      * cbn [ev_op]. by rewrite Hx.
  - intros Hok. split; [by apply create_ok_before_signing|].
    rewrite create_as_stages in *.
    destruct (stages_ok_plan c cmd _ w Hok) as (plans & Hplans & Hops & Hclean).
    unfold steps in Hplans.
    repeat match goal with
           | H : Forall2 _ (_ :: _) _ |- _ =>
               apply Forall2_cons_inv_l in H as (? & ? & ? & H & ->)
           | H : Forall2 _ [] _ |- _ => apply Forall2_nil_inv_l in H as ->
           end.
    match goal with
    | H : step_plan c Signing ?plan |- _ =>
        cbn [step_plan] in H; destruct H as (b & ->)
    end.
    match type of Hops with _ = ?l => assert (Hin : OpRun (x509_args c b) ∈ l) end.
    { cbn [concat]. rewrite !elem_of_app, !elem_of_cons. tauto. }
    destruct (planned_event _ _ _ Hops Hclean Hin) as (ev & Hev & Hop & Hnf).
    exists ev. eexists. split; [done|]. split; [|done]. by rewrite Hop, Hx.
Qed.

Lemma create_fixed_parameters_witness :
  let w := world_of fs_empty_root [0; 1] in
  let o := Certificate.create example_cert (cmd_ok example_cert) w in
  result (before_signing example_cert (cmd_ok example_cert) w) = Ok ()
  ∧ (∃ ev, ev ∈ trace o
           ∧ ev_op ev = OpRun ["openssl"; "genrsa"; "-out"; "/certs/site.key"; "2048"]
           ∧ ev_failed ev = false).
Proof.
  cbn zeta.
  assert (Hpre : result (before_signing example_cert (cmd_ok example_cert)
                           (world_of fs_empty_root [0; 1])) = Ok ())
    by (vm_compute; reflexivity).
  split; [exact Hpre|].
  destruct (create_fixed_parameters example_cert (cmd_ok example_cert)
              (world_of fs_empty_root [0; 1])) as (_ & Hreach & _).
  destruct (Hreach Hpre) as [Hg _]. exact Hg.
Defined.

(** ** Subject and configuration text *)

Section StringFacts.
Implicit Types s t : string.

Lemma append_assoc s t u : (s +:+ t) +:+ u = s +:+ (t +:+ u).
Proof.
  induction s as [|c s IH]; [done|].
  change (String c ((s +:+ t) +:+ u) = String c (s +:+ (t +:+ u))). by rewrite IH.
Qed.

Lemma append_nonempty_r s t : t ≠ "" → s +:+ t ≠ "".
Proof. by destruct s. Qed.

(** Stripping on the right looks at the last part first. *)
Lemma rstrip_app s t :
  rstrip (s +:+ t) = match rstrip t with
                     | "" => rstrip s
                     | String a r => s +:+ String a r
                     end.
Proof.
  induction s as [|c s IH].
  - change (rstrip t = match rstrip t with "" => "" | String a r => String a r end).
    by destruct (rstrip t).
  - change (String c s +:+ t) with (String c (s +:+ t)).
    cbn [rstrip]. rewrite IH. destruct (rstrip t) as [|a r]; [done|].
    by destruct s.
Qed.

Lemma rstrip_app_r s t : rstrip t ≠ "" → rstrip (s +:+ t) = s +:+ rstrip t.
Proof. intros Ht. rewrite rstrip_app. by destruct (rstrip t). Qed.

Lemma conf_template_split d :
  Certificate.conf_template d
  = nl +:+ (conf_head +:+ (d +:+ (conf_mid +:+ (d +:+ nl)))).
Proof.
  unfold Certificate.conf_template, conf_head, conf_mid.
  cbn [unlines]. rewrite !append_assoc. reflexivity.
Qed.

(** The text written: the template, with the end of the last line
    stripped. *)
Lemma conf_text_stripped (c : Certificate.t) :
  Certificate.conf_text c
  = conf_head +:+ Certificate._domain c +:+ conf_mid +:+ rstrip (Certificate._domain c).
Proof.
  unfold Certificate.conf_text, strip. rewrite conf_template_split.
  generalize (Certificate._domain c). intros d.
  assert (Hl : ∀ s, lstrip (nl +:+ (conf_head +:+ s)) = conf_head +:+ s) by done.
  rewrite Hl.
  assert (Hd : rstrip (d +:+ nl) = rstrip d).
  { rewrite rstrip_app. done. }
  assert (Hm : rstrip (conf_mid +:+ (d +:+ nl)) = conf_mid +:+ rstrip d).
  { rewrite rstrip_app, Hd. by destruct (rstrip d). }
  assert (Hne : rstrip (conf_mid +:+ (d +:+ nl)) ≠ "") by (by rewrite Hm).
  rewrite rstrip_app_r.
  - rewrite rstrip_app_r by done. by rewrite Hm.
  - rewrite rstrip_app_r by done. by apply append_nonempty_r.
Qed.

Lemma rstrip_idemp s : rstrip (rstrip s) = rstrip s.
Proof.
  induction s as [|ch s IH]; [done|]. cbn [rstrip].
  destruct (rstrip s) as [|a r] eqn:Hs.
  - destruct (is_space ch) eqn:Hch; [done|]. cbn [rstrip]. by rewrite Hch.
  - cbn [rstrip] in *. by rewrite IH.
Qed.

Lemma append_nil_r s : s +:+ "" = s.
Proof.
  induction s as [|c s IH]; [done|].
  change (String c (s +:+ "") = String c s). by rewrite IH.
Qed.

(** *** DNS names *)

Lemma dns_char_not_space (ch : ascii) :
  is_dns_char ch = true → is_space ch = false ∧ Ascii.eqb ch (ascii_of_nat 10) = false.
Proof. destruct ch as [[] [] [] [] [] [] [] []]; vm_compute; intros H; by try discriminate H. Qed.

Lemma dns_name_rstrip s : dns_name s = true → rstrip s = s.
Proof.
  induction s as [|ch s IH]; [done|]. cbn [dns_name rstrip].
  intros [Hch Hs]%andb_true_iff. rewrite (IH Hs).
  destruct s; [|done]. by rewrite (proj1 (dns_char_not_space ch Hch)).
Qed.

Lemma dns_name_one_line s : dns_name s = true → split_lines s = [s].
Proof.
  induction s as [|ch s IH]; [done|]. cbn [dns_name split_lines].
  intros [Hch Hs]%andb_true_iff.
  by rewrite (proj2 (dns_char_not_space ch Hch)), (IH Hs).
Qed.

(** *** Lines *)

Lemma split_lines_cons s : ∃ l ls, split_lines s = l :: ls.
Proof.
  induction s as [|ch s (l & ls & IH)]; cbn [split_lines]; [by eauto|].
  destruct (Ascii.eqb ch _); [by eauto|]. rewrite IH. eauto.
Qed.

(** The lines of two texts put end to end: the last line of the first
    goes on with the first line of the second. *)
Lemma split_lines_app s t ls l l' ls' :
  split_lines s = ls ++ [l] → split_lines t = l' :: ls' →
  split_lines (s +:+ t) = ls ++ (l +:+ l') :: ls'.
Proof.
  intros Hs Ht. revert ls l Hs. induction s as [|ch s IH]; intros ls l Hs.
  - cbn in Hs. destruct ls as [|? [|? ?]]; [|done..].
    injection Hs as <-. done.
  - change (String ch s +:+ t) with (String ch (s +:+ t)).
    destruct (split_lines_cons s) as (m & ms & Hm).
    cbn [split_lines] in Hs |- *. rewrite Hm in Hs.
    destruct (Ascii.eqb ch (ascii_of_nat 10)).
    + destruct ls as [|l0 ls]; [done|].
      injection Hs as <- Hs. rewrite <- Hm in Hs. by rewrite (IH _ _ Hs).
    + destruct ls as [|l0 ls].
      * injection Hs as <- ->. by rewrite (IH [] m Hm).
      * injection Hs as <- ->. by rewrite (IH (m :: ls) l Hm).
Qed.

End StringFacts.

(** C6: the subject is the concatenation of [/key=value] over the seven
    subject parts, in the order C, ST, O, localityName, commonName,
    organizationalUnitName, emailAddress, closed by a slash; only the
    common name (the domain) and the e-mail address (the domain followed by
    [@localhttps]) are filled in. For [example.test] it is the string the
    specification quotes. *)
Theorem subject_format (c : Certificate.t) :
  Certificate.subject_parts c
  = [ ("C", ""); ("ST", ""); ("O", ""); ("localityName", "");
      ("commonName", Certificate._domain c); ("organizationalUnitName", "");
      ("emailAddress", Certificate._domain c +:+ "@localhttps") ]
  ∧ Certificate.subject c
    = "/C=/ST=/O=/localityName=/commonName=" +:+ Certificate._domain c
      +:+ "/organizationalUnitName=/emailAddress=" +:+ Certificate._domain c
      +:+ "@localhttps/"
  ∧ (∀ authority root name,
       Certificate.subject (Certificate.Build authority root name "example.test")
       = "/C=/ST=/O=/localityName=/commonName=example.test/organizationalUnitName=/emailAddress=example.test@localhttps/").
Proof.
  split; [reflexivity|]. split; [|reflexivity].
  unfold Certificate.subject, Certificate.subject_parts, Certificate.email,
    Certificate.common_name, join.
  generalize (Certificate._domain c). intros d. cbn [fmap list_fmap foldr fst snd].
  rewrite !append_assoc. reflexivity.
Qed.

(** C7: for every domain that is a DNS name (letters, digits, hyphens and
    dots), the text written is the fixed template where only the domain
    varies. Line by line: the [req] and [req_distinguished_name] sections,
    the [v3_req] section (basicConstraints CA:FALSE, keyUsage
    nonRepudiation, digitalSignature, keyEncipherment, subjectAltName
    referring to [alt_names]), and last the [alt_names] section with
    exactly the two entries [DNS.1 = <domain>] and [DNS.2 = *.<domain>]. *)
Theorem conf_text_template (c : Certificate.t) :
  dns_name (Certificate._domain c) = true →
  split_lines (Certificate.conf_text c)
  = [ "[req]";
      "distinguished_name = req_distinguished_name";
      "req_extensions = v3_req";
      "";
      "[req_distinguished_name]";
      "countryName = Country Name (2 letter code)";
      "countryName_default = US";
      "stateOrProvinceName = State or Province Name (full name)";
      "stateOrProvinceName_default = MN";
      "localityName = Locality Name (eg, city)";
      "localityName_default = Minneapolis";
      "organizationalUnitName" +:+ tab +:+ "= Organizational Unit Name (eg, section)";
      "organizationalUnitName_default" +:+ tab +:+ "= Domain Control Validated";
      "commonName = Internet Widgits Ltd";
      "commonName_max" +:+ tab +:+ "= 64";
      "";
      "[ v3_req ]";
      "# Extensions to add to a certificate request";
      "basicConstraints = CA:FALSE";
      "keyUsage = nonRepudiation, digitalSignature, keyEncipherment";
      "subjectAltName = @alt_names";
      "";
      "[alt_names]";
      "DNS.1 = " +:+ Certificate._domain c;
      "DNS.2 = *." +:+ Certificate._domain c ].
Proof.
  intros Hd. rewrite conf_text_stripped, (dns_name_rstrip _ Hd).
  generalize dependent (Certificate._domain c). intros d Hd.
  assert (Hmid : split_lines (conf_mid +:+ d) = ["" ; "DNS.2 = *." +:+ d]).
  { change (conf_mid +:+ d) with (String (ascii_of_nat 10) ("DNS.2 = *." +:+ d)).
    cbn [split_lines]. rewrite Ascii.eqb_refl. f_equal.
    by rewrite (split_lines_app "DNS.2 = *." d [] "DNS.2 = *." d [])
      by (done || by apply dns_name_one_line). }
  assert (Htail : split_lines (d +:+ (conf_mid +:+ d)) = [d; "DNS.2 = *." +:+ d]).
  { rewrite (split_lines_app d _ [] d "" ["DNS.2 = *." +:+ d])
      by (done || by apply dns_name_one_line).
    by rewrite append_nil_r. }
  match goal with |- _ = ?lines =>
    rewrite (split_lines_app conf_head _
               (take 23 (split_lines conf_head)) "DNS.1 = " d ["DNS.2 = *." +:+ d])
  end; [reflexivity|by vm_compute|exact Htail].
Qed.

Lemma conf_text_template_witness :
  last (split_lines (Certificate.conf_text example_cert)) = Some "DNS.2 = *.example.test"
  ∧ split_lines (Certificate.conf_text example_cert) !! 23 = Some "DNS.1 = example.test"
  ∧ length (split_lines (Certificate.conf_text example_cert)) = 25.
Proof.
  rewrite (conf_text_template example_cert); [|reflexivity].
  repeat split.
Defined.

(** ** Further properties of the certificate operations *)

(** X1: the four artifact paths of a certificate are pairwise different. *)
Theorem artifact_paths_distinct (c : Certificate.t) :
  NoDup [ Certificate.key_path c; Certificate.csr_path c;
          Certificate.crt_path c; Certificate.conf_path c ].
Proof. apply (artifacts_NoDup c). Qed.

(** X2: [delete] returns exactly when each artifact path is a file or
    absent, below directories only. Otherwise it raises in one of the
    unlinks: [NotADirectoryError] for an artifact path that has a regular
    file among its ancestors (the storage root, or a directory above it),
    or [IsADirectoryError] for an artifact path that is a directory.
    Whatever it does, it leaves every path other than the artifacts and
    the root as it was, it leaves the state of the executor alone, and
    when it raises the root is left as it was. *)
Theorem delete_outcomes {St} (c : Certificate.t) (w : World St) :
  let o := Certificate.delete c w in
  let root := Certificate._root_path c in
  (result o = Ok ()
   ∨ ∃ p, p ∈ artifacts c
          ∧ ((blocked (fs w) p = true ∧ result o = Raise (NotADirectoryError p))
             ∨ (is_dir (fs w) p = true ∧ result o = Raise (IsADirectoryError p))))
  ∧ (result o = Ok () ↔
     Forall (λ p, blocked (fs w) p = false ∧ is_dir (fs w) p = false) (artifacts c))
  ∧ (∀ q, q ∉ artifacts c → q ≠ root → fs (world o) !! q = fs w !! q)
  ∧ (result o ≠ Ok () → fs (world o) !! root = fs w !! root)
  ∧ cmd_state (world o) = cmd_state w.
Proof.
  cbn zeta. split; [|split; [|split; [|split]]].
  - destruct (result (Certificate.delete c w)) as [[]|e] eqn:Hr; [by left|right].
    apply delete_raise in Hr as (p & done & Hp & _ & Hres & _).
    exists p. split; [done|].
    apply unlink_result_raise in Hres as [[Hb ->]|(_ & Hd & ->)]; auto.
  - apply delete_ok_iff.
  - intros q Hq Hne. by apply delete_lookup_other.
  - intros Hr. destruct (result (Certificate.delete c w)) as [[]|e] eqn:Hres; [done|].
    apply delete_raise in Hres as (p & done & _ & Hsub & _ & -> & _).
    rewrite unlink_all_lookup, bool_decide_false; [done|].
    intros Hin. by apply (root_not_artifact c), Hsub.
  - by destruct (delete_outcome c w) as (Hc & _).
Qed.

(** X3: [delete] is idempotent: when it has returned, a second [delete]
    returns too and changes nothing on disk. *)
Theorem delete_twice {St} (c : Certificate.t) (w : World St) :
  result (Certificate.delete c w) = Ok () →
  let w1 := world (Certificate.delete c w) in
  result (Certificate.delete c w1) = Ok ()
  ∧ fs (world (Certificate.delete c w1)) = fs w1.
Proof.
  intros Hok. cbn zeta.
  assert (Habs : Forall (λ p, fs (world (Certificate.delete c w)) !! p = None)
                   (artifacts c)).
  { apply Forall_forall. intros p Hp. by apply delete_ok_absent. }
  pose proof (proj1 (delete_ok_iff c w) Hok) as Hnd.
  destruct (unlinkable_root c _ Hnd) as [Hb Hf].
  destruct (delete_ok c w Hnd) as (_ & Hfs & _). cbn zeta in Hfs.
  set (root := Certificate._root_path c) in *.
  set (fs1 := unlink_all (artifacts c) (fs w)) in *.
  (* the root after the first call *)
  assert (Hb1 : blocked (fs (world (Certificate.delete c w))) root = false).
  { rewrite <- Hb. apply blocked_ext. intros r Hr. unfold is_file.
    rewrite delete_lookup_other; [done| |].
    - intros Hin%artifact_length. apply ancestor_shorter in Hr.
      unfold root in *. rewrite Hin in Hr. lia.
    - intros ->. apply ancestor_shorter in Hr. unfold root in *. lia. }
  assert (Hf1 : is_file (fs (world (Certificate.delete c w))) root = false).
  { unfold is_file in *. rewrite Hfs, cleanup_fs_lookup.
    destruct (_ && _ && _); [done|]. unfold fs1, root. by rewrite unlink_all_root. }
  assert (Hnd1 : Forall (unlinkable (fs (world (Certificate.delete c w)))) (artifacts c)).
  { apply Forall_forall. intros p Hp. rewrite Forall_forall in Habs. split.
    - rewrite (artifact_blocked c) by done. fold root. by rewrite Hb1, Hf1.
    - unfold is_dir. by rewrite (Habs p Hp), andb_false_r. }
  destruct (delete_ok c _ Hnd1) as (Hr2 & Hfs2 & _). cbn zeta in Hr2, Hfs2.
  split; [exact Hr2|]. rewrite Hfs2, (unlink_all_absent c _ Habs), Hfs.
  apply cleanup_fs_idemp.
Qed.

Lemma delete_twice_witness :
  let w1 := world (Certificate.delete example_cert (world_of fs_with_fifth [3])) in
  result (Certificate.delete example_cert w1) = Ok ()
  ∧ fs (world (Certificate.delete example_cert w1)) = fs w1.
Proof.
  apply (delete_twice example_cert (world_of fs_with_fifth [3])).
  vm_compute. reflexivity.
Defined.

(** X4: once [delete] has returned, [exists] answers false. *)
Theorem exists_false_after_delete {St} (c : Certificate.t) (w : World St) :
  result (Certificate.delete c w) = Ok () →
  result (Certificate.exists_ c (world (Certificate.delete c w))) = Ok false.
Proof.
  intros Hok. destruct (exists_outcome c (world (Certificate.delete c w))) as (-> & _).
  unfold present. rewrite (delete_ok_absent c w (Certificate.key_path c) Hok).
  - done.
  - unfold artifacts. rewrite !elem_of_cons. tauto.
Qed.

Lemma exists_false_after_delete_witness :
  result (Certificate.exists_ example_cert (world_of fs_with_fifth [0; 1])) = Ok true
  ∧ result (Certificate.exists_ example_cert
              (world (Certificate.delete example_cert (world_of fs_with_fifth [0; 1]))))
    = Ok false.
Proof.
  split; [vm_compute; reflexivity|].
  apply (exists_false_after_delete example_cert (world_of fs_with_fifth [0; 1])).
  vm_compute. reflexivity.
Defined.

(** X5: when [create] returns, the signed certificate and the private key
    are on disk with the permission bits 0o644, whatever the executor and
    the umask gave them. *)
Theorem create_sets_permissions {St} (c : Certificate.t) (cmd : Cmd.t St) (w : World St) :
  result (Certificate.create c cmd w) = Ok () →
  let f := fs (world (Certificate.create c cmd w)) in
  mode_of <$> f !! Certificate.crt_path c = Some 420%N
  ∧ mode_of <$> f !! Certificate.key_path c = Some 420%N.
Proof.
  intros Hok. destruct (create_ok_steps c cmd w Hok) as (_ & _ & _ & _ & _ & H6 & Hw).
  cbn zeta. rewrite Hw. destruct (permissions_ok c cmd _ H6) as (Hcrt & Hkey & _).
  by split.
Qed.

Lemma create_sets_permissions_witness :
  let o := Certificate.create example_cert (cmd_ok example_cert)
             (world_of fs_empty_root [1; 0]) in
  result o = Ok ()
  ∧ fs (world o) !! ["certs"; "site.crt"] = Some (File "pem" 420)
  ∧ mode_of <$> fs (world o) !! ["certs"; "site.key"] = Some 420%N.
Proof.
  cbn zeta. split; [vm_compute; reflexivity|]. split; [vm_compute; reflexivity|].
  apply (create_sets_permissions example_cert (cmd_ok example_cert)
           (world_of fs_empty_root [1; 0])).
  vm_compute. reflexivity.
Defined.

(** X6: [create] changes nothing at a path that is neither an artifact nor
    the root or one of its ancestors, as long as the executor leaves that
    path alone: whether it returns or raises, sibling files of the
    certificate in the storage root are kept. *)
Theorem create_keeps_other_paths {St} (c : Certificate.t) (cmd : Cmd.t St)
    (w : World St) (q : Path) :
  leaves_alone cmd q →
  q ∉ artifacts c →
  q ∉ AsyncPath.prefixes (Certificate._root_path c) →
  fs (world (Certificate.create c cmd w)) !! q = fs w !! q.
Proof.
  intros Hcmd Hq Hpre. rewrite create_as_stages.
  apply (run_stages_preserves (λ f, f !! q = fs w !! q) (step_run c cmd <$> steps));
    [|done].
  apply Forall_fmap, Forall_forall. intros s _.
  by apply step_preserves_other.
Qed.

Lemma create_keeps_other_paths_witness :
  let o := Certificate.create example_cert (cmd_ok example_cert)
             (world_of fs_with_fifth [2; 1; 0; 1]) in
  fs (world o) !! ["certs"; "notes.txt"] = Some (File "keep" 420).
Proof.
  refine (eq_trans (create_keeps_other_paths example_cert (cmd_ok example_cert)
                      (world_of fs_with_fifth [2; 1; 0; 1]) ["certs"; "notes.txt"] _ _ _) _).
  4: reflexivity.
  - intros args st f. unfold cmd_ok. cbn [Cmd.exec].
    destruct (out_path example_cert args) as [p|] eqn:Hp; [|done]. cbn.
    apply lookup_insert_ne. intros ->. unfold out_path in Hp.
    repeat (case_match; try discriminate Hp).
  - unfold artifacts. rewrite !elem_of_cons, elem_of_nil.
    intros [H|[H|[H|[H|[]]]]]; discriminate H.
  - unfold AsyncPath.prefixes. cbn. rewrite !elem_of_cons, elem_of_nil.
    intros [H|[H|[]]]; discriminate H.
Defined.

(** X7: with an executor that never removes a path and whose successful
    signing request has written the request file, a [create] that returns
    leaves a complete certificate: [exists] answers true right after. *)
Theorem exists_after_create {St} (c : Certificate.t) (cmd : Cmd.t St) (w : World St) :
  keeps_paths cmd →
  request_writes_csr c cmd →
  result (Certificate.create c cmd w) = Ok () →
  result (Certificate.exists_ c (world (Certificate.create c cmd w))) = Ok true.
Proof.
  intros Hkeep Hreq Hok.
  destruct (create_ok_steps c cmd w Hok) as (_ & _ & H3 & H4 & _ & H6 & Hw).
  cbn zeta in *. rewrite Hw.
  set (w2 := world (step_run c cmd EnsureDirectory (world (step_run c cmd Reset w)))) in *.
  set (w3 := world (step_run c cmd Generation w2)) in *.
  assert (Hconf3 : is_Some (fs w3 !! Certificate.conf_path c))
    by (by apply generation_ok_conf).
  set (w4 := world (step_run c cmd SigningRequest w3)) in *.
  assert (Hfs4 : fs w4 = (Cmd.exec cmd (req_args c) (cmd_state w3) (fs w3)).2).
  { unfold w4. cbn [step_run]. by rewrite create_signing_request_run, run_fs. }
  assert (Hcsr4 : is_Some (fs w4 !! Certificate.csr_path c)).
  { rewrite Hfs4. apply Hreq. cbn [step_run] in H4.
    by rewrite create_signing_request_run, run_result in H4. }
  assert (Hconf4 : is_Some (fs w4 !! Certificate.conf_path c)).
  { rewrite Hfs4. by apply Hkeep. }
  set (w5 := world (step_run c cmd Signing w4)) in *.
  destruct (signing_fs c cmd w4) as [b Hfs5]. fold w5 in Hfs5.
  destruct (permissions_ok c cmd w5 H6) as (Hcrt & Hkey & Hkept). cbn zeta in *.
  destruct (exists_outcome c (world (step_run c cmd Permissions w5))) as (-> & _).
  unfold present.
  rewrite !bool_decide_true; [done| | | |].
  - apply Hkept. rewrite Hfs5. by apply Hkeep.
  - by destruct (_ !! Certificate.crt_path c).
  - apply Hkept. rewrite Hfs5. by apply Hkeep.
  - by destruct (_ !! Certificate.key_path c).
Qed.

Lemma exists_after_create_witness :
  let o := Certificate.create example_cert (cmd_ok example_cert)
             (world_of fs_empty_root [1; 3]) in
  result o = Ok () ∧ result (Certificate.exists_ example_cert (world o)) = Ok true.
Proof.
  cbn zeta. split; [vm_compute; reflexivity|].
  apply (exists_after_create example_cert (cmd_ok example_cert)
           (world_of fs_empty_root [1; 3])).
  - intros args st f q Hq. unfold cmd_ok. cbn [Cmd.exec].
    destruct (out_path example_cert args) as [p|]; cbn; [|done].
    rewrite lookup_insert_is_Some. destruct (decide (p = q)); auto.
  - intros st f _. cbn. rewrite lookup_insert_eq. eauto.
  - vm_compute. reflexivity.
Defined.

(** X8: for every domain, the configuration text written is the fixed
    template followed by [DNS.1 = <domain>] and by [DNS.2 = *.] with the
    domain stripped of its trailing whitespace; the text itself neither
    starts nor ends with whitespace. *)
Theorem conf_text_any_domain (c : Certificate.t) :
  Certificate.conf_text c
  = conf_head +:+ Certificate._domain c +:+ conf_mid +:+ rstrip (Certificate._domain c)
  ∧ lstrip (Certificate.conf_text c) = Certificate.conf_text c
  ∧ rstrip (Certificate.conf_text c) = Certificate.conf_text c.
Proof.
  split; [apply conf_text_stripped|]. split.
  - by rewrite conf_text_stripped.
  - unfold Certificate.conf_text, strip. apply rstrip_idemp.
Qed.

(** X9: when the storage root is a regular file, [create] cannot succeed:
    the first unlink the event loop runs fails with [NotADirectoryError]
    for its artifact path, and [create] raises it before it makes a
    directory, writes a file or invokes a command; the file system is left
    as it was. *)
Theorem create_refuses_file_root {St} (c : Certificate.t) (cmd : Cmd.t St) (w : World St) :
  is_file (fs w) (Certificate._root_path c) = true →
  let o := Certificate.create c cmd w in
  ∃ p, p ∈ artifacts c
       ∧ result o = Raise (NotADirectoryError p)
       ∧ trace o = [Ev (OpUnlink p) (Failed (NotADirectoryError p))]
       ∧ fs (world o) = fs w
       ∧ cmd_state (world o) = cmd_state w.
Proof.
  intros Hfile. cbn zeta.
  assert (Hall : ∀ p, p ∈ artifacts c →
            unlink_result (fs w) p = Raise (NotADirectoryError p)).
  { intros p Hp. unfold unlink_result.
    by rewrite (artifact_blocked c), Hfile, orb_true_r. }
  destruct (delete_outcome c w) as (Hc & _ & done & rest & Hperm & Hdone & Hrest).
  destruct done as [|ip0 done].
  2:{ apply Forall_cons in Hdone as [Hip0 _].
      rewrite Hall in Hip0; [done|]. rewrite <- Hperm. cbn. by left. }
  destruct rest as [|ip rest].
  { destruct Hrest as (Hnd & _). rewrite Forall_forall in Hnd.
    destruct (Hnd _ (key_is_artifact c)) as [Hb _].
    rewrite (artifact_blocked c), Hfile, orb_true_r in Hb by apply key_is_artifact.
    done. }
  destruct Hrest as (e & He & Hr & Hfs & Ht).
  assert (Hip : ip.2 ∈ artifacts c) by (rewrite <- Hperm; cbn; by left).
  rewrite (Hall _ Hip) in He. injection He as <-.
  unfold Certificate.create.
  match goal with |- context [bind (Certificate.delete c) ?k w] =>
    destruct (bind_raise (Certificate.delete c) k w _ Hr) as (-> & -> & ->) end.
  exists ip.2. by rewrite Hfs, Ht.
Qed.

Lemma create_refuses_file_root_witness :
  let o := Certificate.create example_cert (cmd_ok example_cert)
             (world_of fs_root_is_file [0]) in
  result o = Raise (NotADirectoryError ["certs"; "site.key"])
  ∧ fs (world o) = fs_root_is_file.
Proof.
  destruct (create_refuses_file_root example_cert (cmd_ok example_cert)
              (world_of fs_root_is_file [0])) as (p & _ & _ & _ & Hfs & _).
  - reflexivity.
  - cbn zeta in *. split; [vm_compute; reflexivity|exact Hfs].
Defined.
